(** * DashDeploy: the dashboard deploy action of the Serverless framework

    A shallow embedding of [lib/actions/DashDeploy.js]: the orphan
    detection ([_initNotExistEndpoints]), the choice list and the
    post-selection partition ([_prompt]), the four-stage dispatcher
    ([_deploy]) and the entry point ([dashDeploy]) that chains them.

    JavaScript objects used as maps are association lists in enumeration
    order (for-in and the prompt depend on that order), arrays are lists,
    [push] appends at the end.  Promises are computations over the world
    (the action's [evt] and the trace of external calls) that end
    fulfilled, rejected, or never settle. *)

From Stdlib Require Import List FinFun String Ascii Bool Arith Lia.
Import ListNotations.
Local Open Scope string_scope.
Local Open Scope list_scope.

Set Implicit Arguments.

(** ** JavaScript values the action relies on *)

Module Js.

(** An object used as a map: its own enumerable properties, in the order
    for-in visits them (insertion order for keys that are not array
    indices). *)
Definition Object (V : Type) := list (string * V).

Definition keys {V} (o : Object V) : list string := map fst o.

(** [for (let k in o)] over a member that may be [undefined]: no
    iteration at all in that case. *)
Definition for_in_keys {V} (o : option (Object V)) : list string :=
  match o with
  | Some props => keys props
  | None => []
  end.

Fixpoint get {V} (o : Object V) (k : string) : option V :=
  match o with
  | [] => None
  | (k', v) :: rest => if String.eqb k' k then Some v else get rest k
  end.

(** Truthiness of a string-or-undefined value: [undefined], [null] and
    the empty string are falsy. *)
Definition truthy (v : option string) : bool :=
  match v with
  | Some s => negb (String.eqb s "")
  | None => false
  end.

(** [v ? v : null] *)
Definition or_null (v : option string) : option string :=
  if truthy v then v else None.

(** String conversion in a concatenation: [undefined] prints as text. *)
Definition to_string (v : option string) : string :=
  match v with
  | Some s => s
  | None => "undefined"
  end.

(** [s.split(sep)] for a one-character separator. *)
Fixpoint split_from (sep : ascii) (s : string) (cur : string) : list string :=
  match s with
  | EmptyString => [cur]
  | String c rest =>
      if Ascii.eqb c sep
      then cur :: split_from sep rest ""
      else split_from sep rest (cur ++ String c "")%string
  end.

Definition split (sep : ascii) (s : string) : list string :=
  split_from sep s "".

End Js.

(** ** Data model *)

Record EndpointDef := {
  endpoint_path : string;
  endpoint_method : string
}.

Record EventDef := {
  event_name : string;
  event_type : string
}.

(** A local function: what [getName()], [getAllEndpoints()] and
    [getAllEvents()] return. *)
Record FunctionDef := {
  getName : string;
  getAllEndpoints : list EndpointDef;
  getAllEvents : list EventDef
}.

(** The metadata the remote keeps per method is not inspected. *)
Definition MethodMeta := unit.

(** An item of the remote listing.  The root resource has no [pathPart];
    a resource without methods has no [resourceMethods]. *)
Record DeployedResource := {
  resource_id : string;
  pathPart : option string;
  resourceMethods : option (Js.Object MethodMeta)
}.

(** One response of the remote listing: a page of items and, when more
    remain, the position of the next page. *)
Record Resources := {
  items : list DeployedResource;
  position : option string
}.

(** [evt.data.deployedResources] starts as an empty array and is replaced
    by the listing response. *)
Inductive DeployedResourcesSlot :=
| EmptyArray
| Listing (r : Resources).

(** The per-resource result of a deploy or remove operation is opaque to
    this action. *)
Definition DeployResult := string.
Definition Mapping := Js.Object DeployResult.

(** An entry shown by the checklist prompt: a grouping header
    ([{spacer: ...}]) or a selectable entry. *)
Inductive Choice :=
| Spacer (spacer : string)
| Entry (key value label type : string) (removal : bool).

(** What the prompt hands back: the entry and whether it is toggled on. *)
Record Item := {
  item_choice : Choice;
  toggled : bool
}.

Definition item_removal (it : Item) : bool :=
  match item_choice it with
  | Spacer _ => false
  | Entry _ _ _ _ r => r
  end.

Definition item_type (it : Item) : option string :=
  match item_choice it with
  | Spacer _ => None
  | Entry _ _ _ t _ => Some t
  end.

Definition item_value (it : Item) : option string :=
  match item_choice it with
  | Spacer _ => None
  | Entry _ v _ _ _ => Some v
  end.

(** [items[i].type === t] *)
Definition type_is (it : Item) (t : string) : bool :=
  match item_type it with
  | Some t' => String.eqb t' t
  | None => false
  end.

Record Options := {
  stage : option string;
  region : option string;
  aliasFunction : option string;
  aliasEndpoint : option string;
  aliasRestApi : option string;
  description : option string;
  selectedFunctions : list string;
  selectedEndpoints : list string;
  selectedEvents : list string;
  selectedRemovalEndpoints : list string
}.

Record Data := {
  deployedResources : DeployedResourcesSlot;
  notExistEndpoints : list (list string);
  deployedFunctions : Mapping;
  deployedEndpoints : Mapping;
  removedEndpoints : Mapping;
  deployedEvents : Mapping
}.

Record Evt := {
  options : Options;
  data : Data
}.

(** The options a caller passes in. *)
Record CliOptions := {
  opt_stage : option string;
  opt_region : option string;
  opt_aliasFunction : option string;
  opt_aliasEndpoint : option string;
  opt_aliasRestApi : option string;
  opt_description : option string
}.

(** ** Errors, external calls and the trace *)

Inductive Err :=
| SError (message : string)
| TypeError (message : string)
| ProviderError (message : string).

Inductive Call :=
| CliPromptSelectStage (message : string) (stage : option string) (addLocal : bool)
| CliPromptSelectRegion (message : string) (addAll existing : bool)
    (region stage : option string)
| InitProviders
| GetApiByName (name : string) (stage region : option string)
| AwsRequest (service method restApiId : string) (limit : nat)
    (stage region : option string)
| AsciiGreeting
| QuickHelp
| ConsoleLog (text : string)
| CliPromptSelect (message : string) (choices : list Choice) (multi : bool)
    (doneLabel : string)
| FunctionDeploy (stage region : option string) (names : list string)
| EndpointDeploy (stage region : option string) (names : list string)
| EventDeploy (stage region : option string) (names : list string)
| EndpointRemove (stage region : option string) (names : list string)
    (skipLocal : bool).

(** An external operation is invoked and, unless it never completes,
    settles later: with [None] when it resolves, with the error when it
    rejects.  Synchronous helpers only leave their [Invoke]. *)
Inductive Event :=
| Invoke (c : Call)
| Settle (c : Call) (failure : option Err).

Record World := {
  evt : Evt;
  trace : list Event
}.

(** How a promise ends. *)
Inductive settle (A : Type) :=
| Fulfilled (a : A)
| Rejected (e : Err)
| Pending.
Arguments Rejected {A} e.
Arguments Pending {A}.

Definition promise (A : Type) := World -> settle A * World.

Definition resolve {A} (a : A) : promise A := fun w => (Fulfilled a, w).

Definition reject {A} (e : Err) : promise A := fun w => (Rejected e, w).

(** [p.then(f)]: [f] runs once [p] is fulfilled; a rejection skips it and
    is passed on; nothing runs after a promise that never settles. *)
Definition bind {A B} (p : promise A) (f : A -> promise B) : promise B :=
  fun w =>
    match p w with
    | (Fulfilled a, w') => f a w'
    | (Rejected e, w') => (Rejected e, w')
    | (Pending, w') => (Pending, w')
    end.

Notation "p >>= f" := (bind p f) (at level 50, left associativity).
Notation "p >> q" := (bind p (fun _ => q)) (at level 50, left associativity).

Definition log (es : list Event) (w : World) : World :=
  {| evt := evt w; trace := trace w ++ es |}.

(** Calling an external asynchronous operation whose answer is [r]. *)
Definition external {A} (c : Call) (r : settle A) : promise A :=
  fun w =>
    match r with
    | Fulfilled a => (Fulfilled a, log [Invoke c; Settle c None] w)
    | Rejected e => (Rejected e, log [Invoke c; Settle c (Some e)] w)
    | Pending => (Pending, log [Invoke c] w)
    end.

(** A synchronous helper (console output, provider set-up). *)
Definition sync (c : Call) : promise unit :=
  fun w => (Fulfilled tt, log [Invoke c] w).

Definition get_evt : promise Evt := fun w => (Fulfilled (evt w), w).

Definition modify (f : Evt -> Evt) : promise unit :=
  fun w => (Fulfilled tt, {| evt := f (evt w); trace := trace w |}).

(** [new BbPromise(function(resolve, reject) {...})]: the executor runs at
    once; the promise settles the way the executor's code calls [resolve]
    or [reject], and stays pending when it calls neither. *)
Inductive Resolver (A : Type) :=
| Resolve (a : A)
| Reject (e : Err)
| NotCalled.
Arguments Reject {A} e.
Arguments NotCalled {A}.

Definition new_BbPromise {A} (executor : World -> Resolver A * World)
  : promise A :=
  fun w =>
    match executor w with
    | (Resolve a, w') => (Fulfilled a, w')
    | (Reject e, w') => (Rejected e, w')
    | (NotCalled, w') => (Pending, w')
    end.

(** Inside an executor: [p.then(function(x) { ...; return resolve(); })]
    with no rejection handler.  [resolve] is called by the fulfilment
    callback only; when [p] rejects, the derived promise is rejected with
    nobody listening, and neither [resolve] nor [reject] is called. *)
Definition then_resolve (p : promise unit) : World -> Resolver unit * World :=
  fun w =>
    match p w with
    | (Fulfilled _, w') => (Resolve tt, w')
    | (Rejected _, w') => (NotCalled, w')
    | (Pending, w') => (NotCalled, w')
    end.

(** ** Setters for the fields of [evt] *)

Definition set_options (f : Options -> Options) (e : Evt) : Evt :=
  {| options := f (options e); data := data e |}.

Definition set_data (f : Data -> Data) (e : Evt) : Evt :=
  {| options := options e; data := f (data e) |}.

Definition with_stage (v : option string) (o : Options) : Options :=
  {| stage := v; region := region o;
     aliasFunction := aliasFunction o; aliasEndpoint := aliasEndpoint o;
     aliasRestApi := aliasRestApi o; description := description o;
     selectedFunctions := selectedFunctions o;
     selectedEndpoints := selectedEndpoints o;
     selectedEvents := selectedEvents o;
     selectedRemovalEndpoints := selectedRemovalEndpoints o |}.

Definition with_region (v : option string) (o : Options) : Options :=
  {| stage := stage o; region := v;
     aliasFunction := aliasFunction o; aliasEndpoint := aliasEndpoint o;
     aliasRestApi := aliasRestApi o; description := description o;
     selectedFunctions := selectedFunctions o;
     selectedEndpoints := selectedEndpoints o;
     selectedEvents := selectedEvents o;
     selectedRemovalEndpoints := selectedRemovalEndpoints o |}.

Definition push_selectedFunctions (v : string) (o : Options) : Options :=
  {| stage := stage o; region := region o;
     aliasFunction := aliasFunction o; aliasEndpoint := aliasEndpoint o;
     aliasRestApi := aliasRestApi o; description := description o;
     selectedFunctions := selectedFunctions o ++ [v];
     selectedEndpoints := selectedEndpoints o;
     selectedEvents := selectedEvents o;
     selectedRemovalEndpoints := selectedRemovalEndpoints o |}.

Definition push_selectedEndpoints (v : string) (o : Options) : Options :=
  {| stage := stage o; region := region o;
     aliasFunction := aliasFunction o; aliasEndpoint := aliasEndpoint o;
     aliasRestApi := aliasRestApi o; description := description o;
     selectedFunctions := selectedFunctions o;
     selectedEndpoints := selectedEndpoints o ++ [v];
     selectedEvents := selectedEvents o;
     selectedRemovalEndpoints := selectedRemovalEndpoints o |}.

Definition push_selectedEvents (v : string) (o : Options) : Options :=
  {| stage := stage o; region := region o;
     aliasFunction := aliasFunction o; aliasEndpoint := aliasEndpoint o;
     aliasRestApi := aliasRestApi o; description := description o;
     selectedFunctions := selectedFunctions o;
     selectedEndpoints := selectedEndpoints o;
     selectedEvents := selectedEvents o ++ [v];
     selectedRemovalEndpoints := selectedRemovalEndpoints o |}.

Definition push_selectedRemovalEndpoints (v : string) (o : Options) : Options :=
  {| stage := stage o; region := region o;
     aliasFunction := aliasFunction o; aliasEndpoint := aliasEndpoint o;
     aliasRestApi := aliasRestApi o; description := description o;
     selectedFunctions := selectedFunctions o;
     selectedEndpoints := selectedEndpoints o;
     selectedEvents := selectedEvents o;
     selectedRemovalEndpoints := selectedRemovalEndpoints o ++ [v] |}.

Definition with_deployedResources (v : DeployedResourcesSlot) (d : Data) : Data :=
  {| deployedResources := v; notExistEndpoints := notExistEndpoints d;
     deployedFunctions := deployedFunctions d;
     deployedEndpoints := deployedEndpoints d;
     removedEndpoints := removedEndpoints d;
     deployedEvents := deployedEvents d |}.

Definition with_notExistEndpoints (v : list (list string)) (d : Data) : Data :=
  {| deployedResources := deployedResources d; notExistEndpoints := v;
     deployedFunctions := deployedFunctions d;
     deployedEndpoints := deployedEndpoints d;
     removedEndpoints := removedEndpoints d;
     deployedEvents := deployedEvents d |}.

Definition with_deployedFunctions (v : Mapping) (d : Data) : Data :=
  {| deployedResources := deployedResources d;
     notExistEndpoints := notExistEndpoints d;
     deployedFunctions := v;
     deployedEndpoints := deployedEndpoints d;
     removedEndpoints := removedEndpoints d;
     deployedEvents := deployedEvents d |}.

Definition with_deployedEndpoints (v : Mapping) (d : Data) : Data :=
  {| deployedResources := deployedResources d;
     notExistEndpoints := notExistEndpoints d;
     deployedFunctions := deployedFunctions d;
     deployedEndpoints := v;
     removedEndpoints := removedEndpoints d;
     deployedEvents := deployedEvents d |}.

Definition with_removedEndpoints (v : Mapping) (d : Data) : Data :=
  {| deployedResources := deployedResources d;
     notExistEndpoints := notExistEndpoints d;
     deployedFunctions := deployedFunctions d;
     deployedEndpoints := deployedEndpoints d;
     removedEndpoints := v;
     deployedEvents := deployedEvents d |}.

Definition with_deployedEvents (v : Mapping) (d : Data) : Data :=
  {| deployedResources := deployedResources d;
     notExistEndpoints := notExistEndpoints d;
     deployedFunctions := deployedFunctions d;
     deployedEndpoints := deployedEndpoints d;
     removedEndpoints := removedEndpoints d;
     deployedEvents := v |}.

(** ** The environment of the action

    Everything the action consumes and does not define: the framework
    configuration, the project, the terminal prompts, the provider and
    the four deploy and remove actions.  Each asynchronous collaborator is
    given by the way its promise ends for the arguments it receives. *)

Record RestApiData := { api_id : string }.

Record Env := {
  (** [S.config.interactive] *)
  interactive : bool;
  (** [S.getProject().getName()] *)
  projectName : string;
  (** [S.getProject().getRegion(stage, region).getVariables()] *)
  regionVariables : option string -> option string -> Js.Object string;
  (** [SUtils.getFunctionsByCwd(project.getAllFunctions())] *)
  functionsByCwd : list FunctionDef;
  cliPromptSelectStage : string -> option string -> bool -> settle string;
  cliPromptSelectRegion :
    string -> bool -> bool -> option string -> option string -> settle string;
  (** [aws.getApiByName]; resolves with [undefined] ([None]) or the API *)
  getApiByName :
    string -> option string -> option string -> settle (option RestApiData);
  (** [aws.request(service, method, {restApiId, limit}, stage, region)] *)
  request :
    string -> string -> string -> nat -> option string -> option string ->
    settle Resources;
  cliPromptSelect : string -> list Choice -> bool -> string -> settle (list Item);
  (** the four actions resolve with an event; the action reads its
      [data.deployed] (or [data.removed]), given here *)
  functionDeploy : option string -> option string -> list string -> settle Mapping;
  endpointDeploy : option string -> option string -> list string -> settle Mapping;
  eventDeploy : option string -> option string -> list string -> settle Mapping;
  endpointRemove :
    option string -> option string -> list string -> bool -> settle Mapping
}.

(** ** The action *)

Definition not_interactive_message : string :=
  "Sorry, this is only available in interactive mode".

(** [_validateAndPrepare] *)
Definition _validateAndPrepare (E : Env) : promise unit :=
  if negb (interactive E)
  then reject (SError not_interactive_message)
  else resolve tt.

(** [getVariables()['apiGatewayApi'] || getName()] *)
Definition restApiName (E : Env) (o : Options) : string :=
  let v := Js.get (regionVariables E (stage o) (region o)) "apiGatewayApi" in
  if Js.truthy v then Js.to_string v else projectName E.

(** [_getDeployedResources]: the name of the API, its identifier, then one
    [getResources] request with [limit: 500] whose response is passed on
    as it is. *)
Definition _getDeployedResources (E : Env) : promise Resources :=
  get_evt >>= fun e =>
  let o := options e in
  let name := restApiName E o in
  sync InitProviders >>
  external (GetApiByName name (stage o) (region o))
           (getApiByName E name (stage o) (region o)) >>= fun restApiData =>
  match restApiData with
  | None => reject (TypeError "Cannot read property 'id' of undefined")
  | Some api =>
      let restApiId := api_id api in
      external (AwsRequest "APIGateway" "getResources" restApiId 500
                           (stage o) (region o))
               (request E "APIGateway" "getResources" restApiId 500
                        (stage o) (region o)) >>= fun resources =>
      resolve resources
  end.

(** The variable [deployedResource] of [_initNotExistEndpoints]: [false]
    until the search assigns the matching item. *)
Inductive Found :=
| NotFound
| FoundItem (item : DeployedResource).

(** [item.pathPart == func.getName()] *)
Definition pathPart_is (item : DeployedResource) (name : string) : bool :=
  match pathPart item with
  | Some p => String.eqb p name
  | None => false
  end.

(** [items.every(function(item) {...})]: stops at the first item whose
    [pathPart] is the function's name. *)
Fixpoint every_search (its : list DeployedResource) (name : string)
  (deployedResource : Found) : Found :=
  match its with
  | [] => deployedResource
  | item :: rest =>
      if pathPart_is item name
      then FoundItem item
      else every_search rest name deployedResource
  end.

(** Member reads on [deployedResource]; on [false] both are [undefined]. *)
Definition found_resourceMethods (d : Found) : option (Js.Object MethodMeta) :=
  match d with
  | NotFound => None
  | FoundItem item => resourceMethods item
  end.

Definition found_pathPart (d : Found) : option string :=
  match d with
  | NotFound => None
  | FoundItem item => pathPart item
  end.

(** The inner loop over [localEndpoints]: it runs to the end. *)
Fixpoint exist_loop (method : string) (localEndpoints : list EndpointDef)
  (exist : bool) : bool :=
  match localEndpoints with
  | [] => exist
  | e :: rest =>
      exist_loop method rest
        (if String.eqb method (endpoint_method e) then true else exist)
  end.

(** The for-in loop over the deployed methods. *)
Fixpoint methods_loop (deployedResource : Found) (methods : list string)
  (localEndpoints : list EndpointDef) (funcNotExistEndpoints : list string)
  : list string :=
  match methods with
  | [] => funcNotExistEndpoints
  | method :: rest =>
      let exist := exist_loop method localEndpoints false in
      methods_loop deployedResource rest localEndpoints
        (if negb exist
         then funcNotExistEndpoints ++
              [(Js.to_string (found_pathPart deployedResource) ++ "~" ++ method)%string]
         else funcNotExistEndpoints)
  end.

(** The body of [localFunctions.forEach]: the orphan list of one function. *)
Definition funcNotExistEndpoints_of (func : FunctionDef)
  (its : list DeployedResource) : list string :=
  let localEndpoints := getAllEndpoints func in
  let deployedResource := every_search its (getName func) NotFound in
  methods_loop deployedResource
    (Js.for_in_keys (found_resourceMethods deployedResource))
    localEndpoints [].

(** [localFunctions.forEach(...)]: one push per function.  Reading
    [.items.every] on the initial empty array throws before anything is
    pushed. *)
Fixpoint forEach_func (localFunctions : list FunctionDef)
  (d : DeployedResourcesSlot) (notExist : list (list string))
  : Err + list (list string) :=
  match localFunctions with
  | [] => inr notExist
  | func :: rest =>
      match d with
      | EmptyArray => inl (TypeError "Cannot read property 'every' of undefined")
      | Listing r =>
          forEach_func rest d
            (notExist ++ [funcNotExistEndpoints_of func (items r)])
      end
  end.

(** [_initNotExistEndpoints]; as a [then] callback, a throw rejects. *)
Definition _initNotExistEndpoints (E : Env) : promise bool :=
  get_evt >>= fun e =>
  match forEach_func (functionsByCwd E) (deployedResources (data e))
                     (notExistEndpoints (data e)) with
  | inl err => reject err
  | inr l => modify (set_data (with_notExistEndpoints l)) >> resolve true
  end.

(** *** The choice list of [_prompt] *)

Definition function_choice (func : FunctionDef) : Choice :=
  Entry "  " (getName func) ("function - " ++ getName func)%string
    "function" false.

Definition endpoint_choice (endpoint : EndpointDef) : Choice :=
  Entry "  "
    (endpoint_path endpoint ++ "~" ++ endpoint_method endpoint)%string
    ("endpoint - " ++ endpoint_path endpoint ++ " - "
       ++ endpoint_method endpoint)%string
    "endpoint" false.

Definition removal_choice (endpoint : string) : Choice :=
  let label := Js.split "~" endpoint in
  Entry "  " endpoint
    ("x endpoint removal - " ++ Js.to_string (nth_error label 0) ++ " - "
       ++ Js.to_string (nth_error label 1))%string
    "endpoint" true.

Definition event_choice (event : EventDef) : Choice :=
  Entry "  " (event_name event)
    ("event - " ++ event_name event ++ " - " ++ event_type event)%string
    "event" false.

(** [_.each(collection, f)] where [f] pushes one choice per element;
    over [undefined] it does nothing. *)
Fixpoint each_push {A} (f : A -> Choice) (l : list A) (choices : list Choice)
  : list Choice :=
  match l with
  | [] => choices
  | x :: rest => each_push f rest (choices ++ [f x])
  end.

Definition each_push_opt {A} (f : A -> Choice) (l : option (list A))
  (choices : list Choice) : list Choice :=
  match l with
  | Some l => each_push f l choices
  | None => choices
  end.

(** [_.each(functions, function(func, i) {...})] *)
Fixpoint each_function (functions : list FunctionDef) (i : nat)
  (notExist : list (list string)) (choices : list Choice) : list Choice :=
  match functions with
  | [] => choices
  | func :: rest =>
      let c1 := choices ++ [Spacer (getName func)] in
      let c2 := c1 ++ [function_choice func] in
      let c3 := each_push endpoint_choice (getAllEndpoints func) c2 in
      let c4 := each_push_opt removal_choice (nth_error notExist i) c3 in
      let c5 := each_push event_choice (getAllEvents func) c4 in
      each_function rest (S i) notExist c5
  end.

Definition buildChoices (functions : list FunctionDef)
  (notExist : list (list string)) : list Choice :=
  each_function functions 0 notExist [].

(** *** The loop over the items the prompt returns *)

Definition select_item (it : Item) (o : Options) : Options :=
  if toggled it then
    match item_choice it with
    | Spacer _ => o
    | Entry _ value _ type removal =>
        if removal && String.eqb type "endpoint"
        then push_selectedRemovalEndpoints value o
        else
          let o1 := if String.eqb type "function"
                    then push_selectedFunctions value o else o in
          let o2 := if String.eqb type "endpoint"
                    then push_selectedEndpoints value o1 else o1 in
          if String.eqb type "event"
          then push_selectedEvents value o2 else o2
    end
  else o.

Fixpoint select_loop (its : list Item) (o : Options) : Options :=
  match its with
  | [] => o
  | it :: rest => select_loop rest (select_item it o)
  end.

(** [_prompt] *)
Definition _prompt (E : Env) : promise unit :=
  get_evt >>= fun e =>
  let functions := functionsByCwd E in
  let choices := buildChoices functions (notExistEndpoints (data e)) in
  sync AsciiGreeting >>
  sync (ConsoleLog "") >>
  sync QuickHelp >>
  sync (ConsoleLog "") >>
  external
    (CliPromptSelect "Select the assets you wish to deploy:" choices true "Deploy")
    (cliPromptSelect E "Select the assets you wish to deploy:" choices true "Deploy")
  >>= fun its =>
  modify (set_options (select_loop its)) >>
  sync (ConsoleLog "").

(** *** The four stages of [_deploy] *)

(** [!names || !names.length] on an array *)
Definition nothing_selected (names : list string) : bool :=
  match names with
  | [] => true
  | _ :: _ => false
  end.

(** Stage 1 is the executor of [new BbPromise]: it resolves at once when
    no function is selected, and otherwise from the fulfilment callback of
    [functionDeploy]. *)
Definition functions_stage (E : Env) : promise unit :=
  new_BbPromise (fun w =>
    let o := options (evt w) in
    if nothing_selected (selectedFunctions o)
    then (Resolve tt, w)
    else
      then_resolve
        (external (FunctionDeploy (stage o) (region o) (selectedFunctions o))
                  (functionDeploy E (stage o) (region o) (selectedFunctions o))
         >>= fun deployed =>
         modify (set_data (with_deployedFunctions deployed)))
        w).

Definition endpoints_stage (E : Env) : promise unit :=
  get_evt >>= fun e =>
  let o := options e in
  if nothing_selected (selectedEndpoints o)
  then resolve tt
  else
    external (EndpointDeploy (stage o) (region o) (selectedEndpoints o))
             (endpointDeploy E (stage o) (region o) (selectedEndpoints o))
    >>= fun deployed =>
    modify (set_data (with_deployedEndpoints deployed)).

Definition events_stage (E : Env) : promise unit :=
  get_evt >>= fun e =>
  let o := options e in
  if nothing_selected (selectedEvents o)
  then resolve tt
  else
    external (EventDeploy (stage o) (region o) (selectedEvents o))
             (eventDeploy E (stage o) (region o) (selectedEvents o))
    >>= fun deployed =>
    modify (set_data (with_deployedEvents deployed)).

Definition removal_stage (E : Env) : promise unit :=
  get_evt >>= fun e =>
  let o := options e in
  if nothing_selected (selectedRemovalEndpoints o)
  then resolve tt
  else
    external
      (EndpointRemove (stage o) (region o) (selectedRemovalEndpoints o) true)
      (endpointRemove E (stage o) (region o) (selectedRemovalEndpoints o) true)
    >>= fun removed =>
    modify (set_data (with_removedEndpoints removed)).

(** [_deploy] *)
Definition _deploy (E : Env) : promise unit :=
  functions_stage E >> endpoints_stage E >> events_stage E >> removal_stage E.

(** *** The entry point *)

(** [evt] after the defaults of [dashDeploy] are in place. *)
Definition defaults (c : CliOptions) : Evt :=
  {| options :=
       {| stage := Js.or_null (opt_stage c);
          region := opt_region c;
          aliasFunction := Js.or_null (opt_aliasFunction c);
          aliasEndpoint := Js.or_null (opt_aliasEndpoint c);
          aliasRestApi := Js.or_null (opt_aliasRestApi c);
          description := opt_description c;
          selectedFunctions := [];
          selectedEndpoints := [];
          selectedEvents := [];
          selectedRemovalEndpoints := [] |};
     data :=
       {| deployedResources := EmptyArray;
          notExistEndpoints := [];
          deployedFunctions := [];
          deployedEndpoints := [];
          removedEndpoints := [];
          deployedEvents := [] |} |}.

Definition select_stage (E : Env) : promise unit :=
  get_evt >>= fun e =>
  external
    (CliPromptSelectStage "Choose a Stage: " (stage (options e)) false)
    (cliPromptSelectStage E "Choose a Stage: " (stage (options e)) false)
  >>= fun s =>
  modify (set_options (with_stage (Some s))).

Definition select_region (E : Env) : promise unit :=
  get_evt >>= fun e =>
  external
    (CliPromptSelectRegion "Choose a Region in this Stage: " false true
       (region (options e)) (stage (options e)))
    (cliPromptSelectRegion E "Choose a Region in this Stage: " false true
       (region (options e)) (stage (options e)))
  >>= fun r =>
  modify (set_options (with_region (Some r))).

Definition dashDeploy_flow (E : Env) : promise Evt :=
  resolve tt >>
  _validateAndPrepare E >>
  select_stage E >>
  select_region E >>
  _getDeployedResources E >>= (fun deployed =>
    modify (set_data (with_deployedResources (Listing deployed)))) >>
  _initNotExistEndpoints E >>
  _prompt E >>
  _deploy E >>
  get_evt.

(** [dashDeploy(evt)]: how the returned promise ends, and the world then. *)
Definition dashDeploy (E : Env) (c : CliOptions) : settle Evt * World :=
  dashDeploy_flow E {| evt := defaults c; trace := [] |}.

(** What the caller reads from the returned [evt]. *)
Record Outcome := {
  out_deployedFunctions : Mapping;
  out_deployedEndpoints : Mapping;
  out_deployedEvents : Mapping;
  out_removedEndpoints : Mapping
}.

Definition outcome_of (e : Evt) : Outcome :=
  {| out_deployedFunctions := deployedFunctions (data e);
     out_deployedEndpoints := deployedEndpoints (data e);
     out_deployedEvents := deployedEvents (data e);
     out_removedEndpoints := removedEndpoints (data e) |}.

(** ** A sample project and environment, used to run the action *)

Module Sample.

Definition users : FunctionDef :=
  {| getName := "users";
     getAllEndpoints := [ {| endpoint_path := "users"; endpoint_method := "GET" |} ];
     getAllEvents := [ {| event_name := "nightly"; event_type := "schedule" |} ] |}.

Definition users_resource : DeployedResource :=
  {| resource_id := "r1";
     pathPart := Some "users";
     resourceMethods := Some [("GET", tt); ("DELETE", tt)] |}.

Definition root_resource : DeployedResource :=
  {| resource_id := "r0"; pathPart := None; resourceMethods := None |}.

Definition listing : Resources :=
  {| items := [root_resource; users_resource]; position := None |}.

(** The operator toggles the entries whose value is in [picked]. *)
Definition toggle (picked : list string) (c : Choice) : Item :=
  {| item_choice := c;
     toggled :=
       match c with
       | Spacer _ => false
       | Entry _ v _ _ _ => existsb (String.eqb v) picked
       end |}.

Definition env (picked : list string) (functions_answer : settle Mapping)
  : Env :=
  {| interactive := true;
     projectName := "demo";
     regionVariables := fun _ _ => [];
     functionsByCwd := [users];
     cliPromptSelectStage := fun _ _ _ => Fulfilled "dev";
     cliPromptSelectRegion := fun _ _ _ _ _ => Fulfilled "us-east-1";
     getApiByName := fun _ _ _ => Fulfilled (Some {| api_id := "api1" |});
     request := fun _ _ _ _ _ _ => Fulfilled listing;
     cliPromptSelect := fun _ choices _ _ => Fulfilled (map (toggle picked) choices);
     functionDeploy := fun _ _ _ => functions_answer;
     endpointDeploy := fun _ _ names => Fulfilled (map (fun n => (n, "ok")) names);
     eventDeploy := fun _ _ names => Fulfilled (map (fun n => (n, "ok")) names);
     endpointRemove := fun _ _ names _ => Fulfilled (map (fun n => (n, "gone")) names) |}.

Definition cli : CliOptions :=
  {| opt_stage := None; opt_region := None;
     opt_aliasFunction := None; opt_aliasEndpoint := None;
     opt_aliasRestApi := None; opt_description := None |}.

(** The same invocation with aliases and a description given. *)
Definition cli_aliased : CliOptions :=
  {| opt_stage := None; opt_region := None;
     opt_aliasFunction := Some "blue"; opt_aliasEndpoint := Some "";
     opt_aliasRestApi := Some "v2"; opt_description := Some "nightly release" |}.

(** Nothing toggled, every collaborator answers. *)
Definition quiet : Env := env [] (Fulfilled []).

(** A second local function that was never deployed. *)
Definition orders : FunctionDef :=
  {| getName := "orders";
     getAllEndpoints := [ {| endpoint_path := "orders"; endpoint_method := "POST" |} ];
     getAllEvents := [] |}.

Definition with_functions (fs : list FunctionDef) (E : Env) : Env :=
  {| interactive := interactive E;
     projectName := projectName E;
     regionVariables := regionVariables E;
     functionsByCwd := fs;
     cliPromptSelectStage := cliPromptSelectStage E;
     cliPromptSelectRegion := cliPromptSelectRegion E;
     getApiByName := getApiByName E;
     request := request E;
     cliPromptSelect := cliPromptSelect E;
     functionDeploy := functionDeploy E;
     endpointDeploy := endpointDeploy E;
     eventDeploy := eventDeploy E;
     endpointRemove := endpointRemove E |}.

Definition lonely : Env := with_functions [users; orders] quiet.

(** The world once the operator has picked the function and the orphan. *)
Definition chosen : World :=
  {| evt :=
       set_options
         (fun o => push_selectedRemovalEndpoints "users~DELETE"
                     (push_selectedFunctions "users"
                        (with_region (Some "us-east-1")
                           (with_stage (Some "dev") o))))
         (defaults cli);
     trace := [] |}.

(** The same project, run outside an interactive terminal. *)
Definition batch : Env :=
  {| interactive := false;
     projectName := projectName quiet;
     regionVariables := regionVariables quiet;
     functionsByCwd := functionsByCwd quiet;
     cliPromptSelectStage := cliPromptSelectStage quiet;
     cliPromptSelectRegion := cliPromptSelectRegion quiet;
     getApiByName := getApiByName quiet;
     request := request quiet;
     cliPromptSelect := cliPromptSelect quiet;
     functionDeploy := functionDeploy quiet;
     endpointDeploy := endpointDeploy quiet;
     eventDeploy := eventDeploy quiet;
     endpointRemove := endpointRemove quiet |}.

(** The function deploy fails at the provider. *)
Definition failing : Env := env [] (Rejected (ProviderError "request failed")).

(** The listing request fails at the provider. *)
Definition unreachable : Env :=
  {| interactive := true;
     projectName := projectName quiet;
     regionVariables := regionVariables quiet;
     functionsByCwd := functionsByCwd quiet;
     cliPromptSelectStage := cliPromptSelectStage quiet;
     cliPromptSelectRegion := cliPromptSelectRegion quiet;
     getApiByName := getApiByName quiet;
     request := fun _ _ _ _ _ _ => Rejected (ProviderError "request failed");
     cliPromptSelect := cliPromptSelect quiet;
     functionDeploy := functionDeploy quiet;
     endpointDeploy := endpointDeploy quiet;
     eventDeploy := eventDeploy quiet;
     endpointRemove := endpointRemove quiet |}.

(** Everything is toggled and the endpoint deploy fails at the provider. *)
Definition rejecting_endpoints : Env :=
  {| interactive := true;
     projectName := projectName quiet;
     regionVariables := regionVariables quiet;
     functionsByCwd := functionsByCwd quiet;
     cliPromptSelectStage := cliPromptSelectStage quiet;
     cliPromptSelectRegion := cliPromptSelectRegion quiet;
     getApiByName := getApiByName quiet;
     request := request quiet;
     cliPromptSelect :=
       fun _ choices _ _ =>
         Fulfilled (map (toggle ["users"; "users~GET"; "users~DELETE"; "nightly"])
                        choices);
     functionDeploy := fun _ _ _ => Fulfilled [("users", "ok")];
     endpointDeploy := fun _ _ _ => Rejected (ProviderError "request failed");
     eventDeploy := eventDeploy quiet;
     endpointRemove := endpointRemove quiet |}.

(** [users] with its endpoint declared under another path. *)
Definition users_moved : FunctionDef :=
  {| getName := "users";
     getAllEndpoints := [ {| endpoint_path := "v2/people"; endpoint_method := "GET" |} ];
     getAllEvents := [] |}.

(** The world once the operator has picked every entry. *)
Definition chosen_all : World :=
  {| evt :=
       set_options
         (fun o => push_selectedRemovalEndpoints "users~DELETE"
                     (push_selectedEvents "nightly"
                        (push_selectedEndpoints "users~GET"
                           (push_selectedFunctions "users"
                              (with_region (Some "us-east-1")
                                 (with_stage (Some "dev") o))))))
         (defaults cli);
     trace := [] |}.

(** A second deployed resource named [users], under another parent. *)
Definition users_shadow : DeployedResource :=
  {| resource_id := "r2";
     pathPart := Some "users";
     resourceMethods := Some [("PUT", tt)] |}.

(** A deployed resource named [users] with no method on it. *)
Definition users_bare : DeployedResource :=
  {| resource_id := "r3"; pathPart := Some "users"; resourceMethods := None |}.

(** The world [dashDeploy] starts from. *)
Definition started : World := {| evt := defaults cli; trace := [] |}.

(** A remote API that holds [all] and lists it a page at a time: a
    request returns at most [limit] items from the start of the
    collection, and a position when items remain. *)
Definition paged_listing (all : list DeployedResource) (limit : nat)
  : Resources :=
  {| items := firstn limit all;
     position := if (List.length all <=? limit)%nat then None else Some "500" |}.

(** 501 deployed resources; the one of [users] comes last. *)
Definition crowded : list DeployedResource :=
  repeat root_resource 500 ++ [users_resource].

Definition crowded_env : Env :=
  {| interactive := true;
     projectName := projectName quiet;
     regionVariables := regionVariables quiet;
     functionsByCwd := functionsByCwd quiet;
     cliPromptSelectStage := cliPromptSelectStage quiet;
     cliPromptSelectRegion := cliPromptSelectRegion quiet;
     getApiByName := getApiByName quiet;
     request := fun _ _ _ limit _ _ => Fulfilled (paged_listing crowded limit);
     cliPromptSelect := cliPromptSelect quiet;
     functionDeploy := functionDeploy quiet;
     endpointDeploy := endpointDeploy quiet;
     eventDeploy := eventDeploy quiet;
     endpointRemove := endpointRemove quiet |}.

(** The world once the listing is stored in [evt.data]. *)
Definition fetched : World :=
  {| evt := set_data (with_deployedResources (Listing listing)) (defaults cli);
     trace := [] |}.

End Sample.

(** ** Vocabulary of the properties *)

(** Some local endpoint has exactly this method. *)
Definition has_method (localEndpoints : list EndpointDef) (method : string)
  : bool :=
  existsb (fun e => String.eqb method (endpoint_method e)) localEndpoints.

Definition orphan_key (d : Found) (method : string) : string :=
  (Js.to_string (found_pathPart d) ++ "~" ++ method)%string.

(** The entries [_prompt] pushes for one function: the header, the
    function, its endpoints, its orphans, its events. *)
Definition orphans_at (notExist : list (list string)) (i : nat) : list string :=
  match nth_error notExist i with
  | Some l => l
  | None => []
  end.

Definition function_block (func : FunctionDef) (orphans : list string)
  : list Choice :=
  [Spacer (getName func); function_choice func]
    ++ map endpoint_choice (getAllEndpoints func)
    ++ map removal_choice orphans
    ++ map event_choice (getAllEvents func).

(** A header carries no key, value or type: it is not a choice the
    operator can toggle. *)
Definition selectable (c : Choice) : bool :=
  match c with
  | Spacer _ => false
  | Entry _ _ _ _ _ => true
  end.

(** 1 function choice + endpoints + orphans + events, for the function at
    position [i]. *)
Definition choices_of (notExist : list (list string)) (i : nat)
  (func : FunctionDef) : nat :=
  1 + List.length (getAllEndpoints func)
    + List.length (orphans_at notExist i)
    + List.length (getAllEvents func).

(** The sum of [choices_of] over the functions, numbered from [start]. *)
Definition total_choices_from (start : nat) (functions : list FunctionDef)
  (notExist : list (list string)) : nat :=
  list_sum
    (map (fun p => choices_of notExist (fst p) (snd p))
         (combine (seq start (List.length functions)) functions)).

Definition total_choices (functions : list FunctionDef)
  (notExist : list (list string)) : nat :=
  total_choices_from 0 functions notExist.

(** Where the loop of [_prompt] routes an item: to the removals when it
    is toggled, flagged for removal and of type endpoint; otherwise, when
    toggled, to the sequence of its type. *)
Definition to_removal (it : Item) : bool :=
  toggled it && (item_removal it && type_is it "endpoint").

Definition to_kind (kind : string) (it : Item) : bool :=
  toggled it && negb (item_removal it && type_is it "endpoint")
    && type_is it kind.

(** The value an item contributes when it is routed. *)
Definition value_of (it : Item) : list string :=
  match item_value it with
  | Some v => [v]
  | None => []
  end.

Definition values (its : list Item) : list string := flat_map value_of its.

(** An item of one of the three types the loop knows. *)
Definition is_choice (it : Item) : bool :=
  type_is it "function" || type_is it "endpoint" || type_is it "event".

(** In how many of the four sequences an item is placed. *)
Definition placements (it : Item) : nat :=
  Nat.b2n (to_removal it) + Nat.b2n (to_kind "function" it)
  + Nat.b2n (to_kind "endpoint" it) + Nat.b2n (to_kind "event" it).

(** The external operations [_deploy] is due to invoke for a selection:
    one per non-empty sequence, in the order of the four stages. *)
Definition stage_calls (o : Options) : list Call :=
  (if nothing_selected (selectedFunctions o) then []
   else [FunctionDeploy (stage o) (region o) (selectedFunctions o)])
  ++ (if nothing_selected (selectedEndpoints o) then []
      else [EndpointDeploy (stage o) (region o) (selectedEndpoints o)])
  ++ (if nothing_selected (selectedEvents o) then []
      else [EventDeploy (stage o) (region o) (selectedEvents o)])
  ++ (if nothing_selected (selectedRemovalEndpoints o) then []
      else [EndpointRemove (stage o) (region o) (selectedRemovalEndpoints o)
                           true]).

(** The operations a trace invokes, in order. *)
Definition invoked (t : list Event) : list Call :=
  flat_map (fun ev => match ev with
                      | Invoke c => [c]
                      | Settle _ _ => []
                      end) t.

(** A trace in which an operation is invoked only once the one before it
    has resolved: each invocation is followed at once by its own
    settlement, and nothing follows a rejection or an operation that
    does not complete. *)
Inductive sequential : list Event -> Prop :=
| sequential_nil : sequential []
| sequential_pending (c : Call) : sequential [Invoke c]
| sequential_rejected (c : Call) (e : Err) :
    sequential [Invoke c; Settle c (Some e)]
| sequential_resolved (c : Call) (rest : list Event) :
    sequential rest -> sequential (Invoke c :: Settle c None :: rest).

(** The trace of operations that all resolve, one after the other. *)
Definition resolved_steps (calls : list Call) : list Event :=
  flat_map (fun c => [Invoke c; Settle c None]) calls.

(** How the environment answers a deploy or remove call. *)
Definition answer (E : Env) (c : Call) : settle Mapping :=
  match c with
  | FunctionDeploy st rg names => functionDeploy E st rg names
  | EndpointDeploy st rg names => endpointDeploy E st rg names
  | EventDeploy st rg names => eventDeploy E st rg names
  | EndpointRemove st rg names skipLocal => endpointRemove E st rg names skipLocal
  | _ => Pending
  end.

Definition resolves (E : Env) (c : Call) : bool :=
  match answer E c with
  | Fulfilled _ => true
  | _ => false
  end.

Definition is_functionDeploy (c : Call) : bool :=
  match c with FunctionDeploy _ _ _ => true | _ => false end.

Definition is_endpointDeploy (c : Call) : bool :=
  match c with EndpointDeploy _ _ _ => true | _ => false end.

Definition is_eventDeploy (c : Call) : bool :=
  match c with EventDeploy _ _ _ => true | _ => false end.

Definition is_endpointRemove (c : Call) : bool :=
  match c with EndpointRemove _ _ _ _ => true | _ => false end.

Definition is_dispatch (c : Call) : bool :=
  is_functionDeploy c || is_endpointDeploy c || is_eventDeploy c
  || is_endpointRemove c.

(** The chain of [dashDeploy] up to, and without, [_deploy]. *)
Definition before_deploy (E : Env) : promise unit :=
  resolve tt >>
  _validateAndPrepare E >>
  select_stage E >>
  select_region E >>
  _getDeployedResources E >>= (fun deployed =>
    modify (set_data (with_deployedResources (Listing deployed)))) >>
  _initNotExistEndpoints E >>
  _prompt E.

(** The fetch ends with the whole remote collection [all]. *)
Definition retrieves_whole_collection (E : Env) (w : World)
  (all : list DeployedResource) : Prop :=
  exists res, fst (_getDeployedResources E w) = Fulfilled res /\ items res = all.

(** The options with the three aliases and the description blanked. *)
Definition forget (o : Options) : Options :=
  {| stage := stage o; region := region o;
     aliasFunction := None; aliasEndpoint := None;
     aliasRestApi := None; description := None;
     selectedFunctions := selectedFunctions o;
     selectedEndpoints := selectedEndpoints o;
     selectedEvents := selectedEvents o;
     selectedRemovalEndpoints := selectedRemovalEndpoints o |}.

Definition forget_world (w : World) : World :=
  {| evt := set_options forget (evt w); trace := trace w |}.

(** A promise that does not read the aliases or the description: run
    from a world where they are blanked, it ends the same way, in the
    same world with them blanked. *)
Definition blind {A} (p : promise A) : Prop :=
  forall w, p (forget_world w) = (fst (p w), forget_world (snd (p w))).

(** What a caller reads from a settled [dashDeploy]: the outcome
    mappings when it fulfils, the error when it is rejected. *)
Definition returned (s : settle Evt) : settle Outcome :=
  match s with
  | Fulfilled e => Fulfilled (outcome_of e)
  | Rejected e => Rejected e
  | Pending => Pending
  end.

(** The selection held by the options. *)
Definition selection (o : Options)
  : list string * list string * list string * list string :=
  (selectedFunctions o, selectedEndpoints o, selectedEvents o,
   selectedRemovalEndpoints o).

(** The orphan keys of a function named [name] against the method keys
    [methods] of its deployed resource: one key per method that no local
    endpoint has, in the order of [methods]. *)
Definition orphan_keys (name : string) (localEndpoints : list EndpointDef)
  (methods : list string) : list string :=
  map (fun m => (name ++ "~" ++ m)%string)
      (filter (fun m => negb (has_method localEndpoints m)) methods).

(** An entry with its toggle on, and a whole list toggled on. *)
Definition toggled_on (c : Choice) : Item :=
  {| item_choice := c; toggled := true |}.

Definition toggle_all (choices : list Choice) : list Item :=
  map toggled_on choices.

(** The value key of a local endpoint. *)
Definition endpoint_key (endpoint : EndpointDef) : string :=
  (endpoint_path endpoint ++ "~" ++ endpoint_method endpoint)%string.

(** The text has no "~" in it. *)
Fixpoint no_tilde (s : string) : bool :=
  match s with
  | EmptyString => true
  | String c rest => negb (Ascii.eqb c "~") && no_tilde rest
  end.

(** Where the answer of a resolved deploy or remove call is kept. *)
Definition store (c : Call) (m : Mapping) (e : Evt) : Evt :=
  match c with
  | FunctionDeploy _ _ _ => set_data (with_deployedFunctions m) e
  | EndpointDeploy _ _ _ => set_data (with_deployedEndpoints m) e
  | EventDeploy _ _ _ => set_data (with_deployedEvents m) e
  | EndpointRemove _ _ _ _ => set_data (with_removedEndpoints m) e
  | _ => e
  end.

(** The dispatcher read as one loop over the due calls: invoke each in
    turn and keep its answer; stop at the first that does not resolve.  A
    rejection is handed on, except that of the function deploy, after
    which the promise stays pending. *)
Fixpoint run_calls (E : Env) (calls : list Call) (w : World)
  : settle unit * World :=
  match calls with
  | [] => (Fulfilled tt, w)
  | c :: rest =>
      match answer E c with
      | Fulfilled m =>
          run_calls E rest
            {| evt := store c m (evt w);
               trace := trace w ++ [Invoke c; Settle c None] |}
      | Rejected e =>
          (if is_functionDeploy c then Pending else Rejected e,
           log [Invoke c; Settle c (Some e)] w)
      | Pending => (Pending, log [Invoke c] w)
      end
  end.

(** The options a caller passes and the action only carries along. *)
Definition passed_through (o : Options)
  : option string * option string * option string * option string :=
  (aliasFunction o, aliasEndpoint o, aliasRestApi o, description o).

(** A promise that leaves those options as they are. *)
Definition keeps {A} (p : promise A) : Prop :=
  forall w,
    passed_through (options (evt (snd (p w))))
    = passed_through (options (evt w)).

(** * Properties *)

(** ** Orphan detection *)

Section Orphans.

Lemma exist_loop_has_method method localEndpoints exist :
  exist_loop method localEndpoints exist
  = exist || has_method localEndpoints method.
Proof.
  revert exist.
  induction localEndpoints as [|e rest IH]; intro exist; simpl.
  - now rewrite orb_false_r.
  - rewrite IH.
    destruct (String.eqb method (endpoint_method e)), exist; reflexivity.
Qed.

Lemma methods_loop_filter d methods localEndpoints acc :
  methods_loop d methods localEndpoints acc
  = acc ++ map (orphan_key d)
             (filter (fun m => negb (has_method localEndpoints m)) methods).
Proof.
  revert acc.
  induction methods as [|m rest IH]; intro acc; simpl.
  - now rewrite app_nil_r.
  - rewrite IH, exist_loop_has_method. simpl.
    destruct (has_method localEndpoints m); simpl.
    + reflexivity.
    + now rewrite <- app_assoc.
Qed.

Lemma has_method_true localEndpoints method :
  has_method localEndpoints method = true <->
  exists e, In e localEndpoints /\ endpoint_method e = method.
Proof.
  unfold has_method. rewrite existsb_exists.
  split; intros [e [Hin He]]; exists e; split; trivial.
  - symmetry. now apply String.eqb_eq.
  - apply String.eqb_eq. now symmetry.
Qed.

Lemma has_method_false localEndpoints method :
  (forall e, In e localEndpoints -> endpoint_method e <> method) ->
  has_method localEndpoints method = false.
Proof.
  intro Hno.
  destruct (has_method localEndpoints method) eqn:Hm; trivial.
  apply has_method_true in Hm. destruct Hm as [e [Hin He]].
  now destruct (Hno e Hin).
Qed.

Lemma append_inj_r (p a b : string) :
  (p ++ a)%string = (p ++ b)%string -> a = b.
Proof.
  induction p as [|c p IH]; simpl; intro H.
  - exact H.
  - injection H as H. now apply IH.
Qed.

Lemma orphan_key_inj d a b : orphan_key d a = orphan_key d b -> a = b.
Proof.
  unfold orphan_key. intro H.
  apply append_inj_r in H. now apply (append_inj_r "~") in H.
Qed.

(** The search returns the first item whose [pathPart] is the name. *)
Lemma every_search_first its name r :
  every_search its name NotFound = FoundItem r <->
  exists before after,
    its = before ++ r :: after /\
    pathPart r = Some name /\
    forall x, In x before -> pathPart x <> Some name.
Proof.
  induction its as [|item rest IH]; simpl.
  - split.
    + discriminate.
    + intros [before [after [H _]]]. now destruct before.
  - unfold pathPart_is. destruct (pathPart item) as [p|] eqn:Hp.
    + destruct (String.eqb p name) eqn:Heq.
      * apply String.eqb_eq in Heq. subst p. split.
        -- intro H. injection H as <-. exists [], rest. repeat split; trivial.
           intros x [].
        -- intros [before [after [Hsplit [Hr Hbefore]]]].
           destruct before as [|b before]; simpl in Hsplit.
           ++ now injection Hsplit as ->.
           ++ injection Hsplit as <- _. destruct (Hbefore item); simpl; auto.
      * apply String.eqb_neq in Heq. rewrite IH. split.
        -- intros [before [after [-> [Hr Hbefore]]]].
           exists (item :: before), after. repeat split; trivial.
           intros x [<- | Hx]; [congruence | now apply Hbefore].
        -- intros [before [after [Hsplit [Hr Hbefore]]]].
           destruct before as [|b before]; simpl in Hsplit.
           ++ injection Hsplit as <- _. congruence.
           ++ injection Hsplit as <- ->. exists before, after.
              repeat split; trivial. intros x Hx. apply Hbefore. now right.
    + rewrite IH. split.
      * intros [before [after [-> [Hr Hbefore]]]].
        exists (item :: before), after. repeat split; trivial.
        intros x [<- | Hx]; [congruence | now apply Hbefore].
      * intros [before [after [Hsplit [Hr Hbefore]]]].
        destruct before as [|b before]; simpl in Hsplit.
        -- injection Hsplit as <- _. congruence.
        -- injection Hsplit as <- ->. exists before, after.
           repeat split; trivial. intros x Hx. apply Hbefore. now right.
Qed.

Lemma every_search_none its name :
  (forall r, In r its -> pathPart r <> Some name) ->
  every_search its name NotFound = NotFound.
Proof.
  induction its as [|item rest IH]; simpl; intro Hno; trivial.
  unfold pathPart_is.
  destruct (pathPart item) as [p|] eqn:Hp.
  - destruct (String.eqb p name) eqn:Heq.
    + apply String.eqb_eq in Heq. subst p.
      destruct (Hno item); auto.
    + apply IH. intros r Hr. apply Hno. now right.
  - apply IH. intros r Hr. apply Hno. now right.
Qed.

Lemma forEach_func_listing localFunctions res acc :
  forEach_func localFunctions (Listing res) acc
  = inr (acc ++ map (fun f => funcNotExistEndpoints_of f (items res))
                    localFunctions).
Proof.
  revert acc.
  induction localFunctions as [|f rest IH]; intro acc; simpl.
  - now rewrite app_nil_r.
  - rewrite IH. now rewrite <- app_assoc.
Qed.

(** With a listing in place and nothing pushed yet, the step fulfils
    and leaves one orphan list per local function, in their order. *)
Lemma initNotExistEndpoints_run (E : Env) (w : World) (res : Resources) :
  deployedResources (data (evt w)) = Listing res ->
  notExistEndpoints (data (evt w)) = [] ->
  _initNotExistEndpoints E w
  = (Fulfilled true,
     {| evt := set_data
                 (with_notExistEndpoints
                    (map (fun f => funcNotExistEndpoints_of f (items res))
                         (functionsByCwd E)))
                 (evt w);
        trace := trace w |}).
Proof.
  intros Hres Hnil.
  unfold _initNotExistEndpoints, bind, get_evt.
  rewrite Hres, Hnil, forEach_func_listing. reflexivity.
Qed.

End Orphans.

(** C2. Take the local function [f] at position [i] and the deployed
    resource [r] that the search matches to it (the first item whose
    [pathPart] is [f]'s name), with each method key once in [r]'s
    mapping.  The step leaves one orphan list per local function; the
    list [l] at position [i] is [f]'s: for every method key of [r], when
    some endpoint of [f] has exactly that method the key
    "<pathPart>~<method>" is not in [l], and when none has, it occurs in
    [l] exactly once. *)
Theorem C2_orphans_by_method
  (E : Env) (w : World) (res : Resources) (i : nat) (f : FunctionDef)
  (r : DeployedResource) :
  deployedResources (data (evt w)) = Listing res ->
  notExistEndpoints (data (evt w)) = [] ->
  nth_error (functionsByCwd E) i = Some f ->
  every_search (items res) (getName f) NotFound = FoundItem r ->
  NoDup (Js.for_in_keys (resourceMethods r)) ->
  exists (orphans : list (list string)) (l : list string),
    _initNotExistEndpoints E w
    = (Fulfilled true,
       {| evt := set_data (with_notExistEndpoints orphans) (evt w);
          trace := trace w |}) /\
    List.length orphans = List.length (functionsByCwd E) /\
    nth_error orphans i = Some l /\
    pathPart r = Some (getName f) /\
    forall method, In method (Js.for_in_keys (resourceMethods r)) ->
      ((exists e, In e (getAllEndpoints f) /\ endpoint_method e = method) ->
       ~ In (getName f ++ "~" ++ method)%string l) /\
      ((forall e, In e (getAllEndpoints f) -> endpoint_method e <> method) ->
       count_occ string_dec l (getName f ++ "~" ++ method)%string = 1).
Proof.
  intros Hres Hnil Hf Hr Hnodup.
  assert (Hpp : pathPart r = Some (getName f)).
  { apply every_search_first in Hr. now destruct Hr as [? [? [_ [? _]]]]. }
  exists (map (fun g => funcNotExistEndpoints_of g (items res)) (functionsByCwd E)),
         (funcNotExistEndpoints_of f (items res)).
  split; [now apply initNotExistEndpoints_run|].
  split; [apply length_map|].
  split; [exact (map_nth_error (fun g => funcNotExistEndpoints_of g (items res)) _ _ Hf)|].
  split; [exact Hpp|].
  intros method Hin.
  assert (Hkey : forall m, (getName f ++ "~" ++ m)%string
                           = orphan_key (FoundItem r) m).
  { intro m. unfold orphan_key, found_pathPart. now rewrite Hpp. }
  rewrite Hkey.
  unfold funcNotExistEndpoints_of. rewrite Hr, methods_loop_filter.
  rewrite app_nil_l. split.
  - intros Hex Hinl. apply has_method_true in Hex.
    apply in_map_iff in Hinl. destruct Hinl as [m [Hm Hfil]].
    apply orphan_key_inj in Hm. subst m.
    apply filter_In in Hfil. destruct Hfil as [_ Hneg].
    rewrite Hex in Hneg. discriminate.
  - intro Hno. apply has_method_false in Hno.
    apply NoDup_count_occ'.
    + apply Injective_map_NoDup.
      * intros a b. apply orphan_key_inj.
      * now apply NoDup_filter.
    + apply in_map. apply filter_In. split; trivial. now rewrite Hno.
Qed.

(** C3. A local function [f] at position [i] for which no item of the
    listing has [f]'s name as [pathPart]: the step fulfils (it does not
    throw) and the orphan list at position [i] is empty. *)
Theorem C3_no_resource_no_orphans
  (E : Env) (w : World) (res : Resources) (i : nat) (f : FunctionDef) :
  deployedResources (data (evt w)) = Listing res ->
  notExistEndpoints (data (evt w)) = [] ->
  nth_error (functionsByCwd E) i = Some f ->
  (forall r, In r (items res) -> pathPart r <> Some (getName f)) ->
  exists orphans : list (list string),
    _initNotExistEndpoints E w
    = (Fulfilled true,
       {| evt := set_data (with_notExistEndpoints orphans) (evt w);
          trace := trace w |}) /\
    List.length orphans = List.length (functionsByCwd E) /\
    nth_error orphans i = Some [].
Proof.
  intros Hres Hnil Hf Hno.
  exists (map (fun g => funcNotExistEndpoints_of g (items res)) (functionsByCwd E)).
  split; [now apply initNotExistEndpoints_run|].
  split; [apply length_map|].
  rewrite (map_nth_error (fun g => funcNotExistEndpoints_of g (items res)) _ _ Hf).
  f_equal.
  unfold funcNotExistEndpoints_of.
  now rewrite (every_search_none _ Hno).
Qed.

Lemma C2_orphans_by_method_witness :
  exists (orphans : list (list string)) (l : list string),
    _initNotExistEndpoints Sample.quiet Sample.fetched
    = (Fulfilled true,
       {| evt := set_data (with_notExistEndpoints orphans) (evt Sample.fetched);
          trace := trace Sample.fetched |}) /\
    List.length orphans = List.length (functionsByCwd Sample.quiet) /\
    nth_error orphans 0 = Some l /\
    pathPart Sample.users_resource = Some (getName Sample.users) /\
    forall method,
      In method (Js.for_in_keys (resourceMethods Sample.users_resource)) ->
      ((exists e, In e (getAllEndpoints Sample.users) /\
                  endpoint_method e = method) ->
       ~ In (getName Sample.users ++ "~" ++ method)%string l) /\
      ((forall e, In e (getAllEndpoints Sample.users) ->
                  endpoint_method e <> method) ->
       count_occ string_dec l (getName Sample.users ++ "~" ++ method)%string = 1).
Proof.
  apply (C2_orphans_by_method Sample.quiet Sample.fetched (res := Sample.listing)
           0 (f := Sample.users) (r := Sample.users_resource)).
  - reflexivity.
  - reflexivity.
  - reflexivity.
  - reflexivity.
  - simpl. repeat constructor; simpl; intuition discriminate.
Defined.

Lemma C3_no_resource_no_orphans_witness :
  exists orphans : list (list string),
    _initNotExistEndpoints Sample.lonely Sample.fetched
    = (Fulfilled true,
       {| evt := set_data (with_notExistEndpoints orphans) (evt Sample.fetched);
          trace := trace Sample.fetched |}) /\
    List.length orphans = List.length (functionsByCwd Sample.lonely) /\
    nth_error orphans 1 = Some [].
Proof.
  apply (C3_no_resource_no_orphans Sample.lonely Sample.fetched
           (res := Sample.listing) 1 (f := Sample.orders)).
  - reflexivity.
  - reflexivity.
  - reflexivity.
  - intros r [<- | [<- | []]]; simpl; discriminate.
Defined.

(** ** The choice list *)

Section Choices.

Lemma each_push_map {A} (f : A -> Choice) (l : list A) (choices : list Choice) :
  each_push f l choices = choices ++ map f l.
Proof.
  revert choices.
  induction l as [|x rest IH]; intro choices; simpl.
  - now rewrite app_nil_r.
  - rewrite IH. now rewrite <- app_assoc.
Qed.

Lemma each_push_opt_map (notExist : list (list string)) (i : nat)
  (choices : list Choice) :
  each_push_opt removal_choice (nth_error notExist i) choices
  = choices ++ map removal_choice (orphans_at notExist i).
Proof.
  unfold each_push_opt, orphans_at.
  destruct (nth_error notExist i).
  - apply each_push_map.
  - now rewrite app_nil_r.
Qed.

(** One round of the outer loop appends the block of its function. *)
Lemma each_function_cons func rest i notExist choices :
  each_function (func :: rest) i notExist choices
  = each_function rest (S i) notExist
      (choices ++ function_block func (orphans_at notExist i)).
Proof.
  simpl. rewrite !each_push_map, each_push_opt_map.
  unfold function_block. f_equal.
  rewrite <- !app_assoc. reflexivity.
Qed.

(** The accumulator is only ever extended. *)
Lemma each_function_acc functions i notExist choices :
  each_function functions i notExist choices
  = choices ++ each_function functions i notExist [].
Proof.
  revert i choices.
  induction functions as [|func rest IH]; intros i choices.
  - simpl. now rewrite app_nil_r.
  - rewrite !each_function_cons.
    rewrite (IH (S i) (choices ++ _)), (IH (S i) ([] ++ _)).
    now rewrite <- app_assoc.
Qed.

Lemma each_function_app fs1 fs2 i notExist :
  each_function (fs1 ++ fs2) i notExist []
  = each_function fs1 i notExist []
      ++ each_function fs2 (i + List.length fs1) notExist [].
Proof.
  revert i.
  induction fs1 as [|func rest IH]; intro i.
  - simpl. now rewrite Nat.add_0_r.
  - rewrite <- app_comm_cons, !each_function_cons.
    rewrite each_function_acc, (each_function_acc rest).
    rewrite IH. simpl List.length.
    replace (i + S (List.length rest)) with (S i + List.length rest) by lia.
    now rewrite !app_nil_l, app_assoc.
Qed.

Lemma function_block_selectable func orphans :
  List.length (filter selectable (function_block func orphans))
  = 1 + List.length (getAllEndpoints func) + List.length orphans
    + List.length (getAllEvents func).
Proof.
  unfold function_block. simpl.
  rewrite !filter_app, !length_app.
  assert (H : forall A (f : A -> Choice) (l : list A),
             (forall x, selectable (f x) = true) ->
             List.length (filter selectable (map f l)) = List.length l).
  { intros A f l Hf. induction l as [|x l IHl]; simpl; trivial.
    rewrite Hf. simpl. now rewrite IHl. }
  rewrite !H by reflexivity. lia.
Qed.

Lemma function_block_length func orphans :
  List.length (function_block func orphans)
  = 2 + List.length (getAllEndpoints func) + List.length orphans
    + List.length (getAllEvents func).
Proof.
  unfold function_block. simpl.
  rewrite !length_app, !length_map. lia.
Qed.

Lemma total_choices_from_cons start func rest notExist :
  total_choices_from start (func :: rest) notExist
  = choices_of notExist start func + total_choices_from (S start) rest notExist.
Proof. reflexivity. Qed.

Lemma each_function_selectable functions i notExist :
  List.length (filter selectable (each_function functions i notExist []))
  = total_choices_from i functions notExist.
Proof.
  revert i.
  induction functions as [|func rest IH]; intro i.
  - reflexivity.
  - rewrite each_function_cons, each_function_acc, total_choices_from_cons.
    rewrite filter_app, length_app, IH. simpl app.
    rewrite function_block_selectable. reflexivity.
Qed.

Lemma each_function_length functions i notExist :
  List.length (each_function functions i notExist [])
  = total_choices_from i functions notExist + List.length functions.
Proof.
  revert i.
  induction functions as [|func rest IH]; intro i.
  - reflexivity.
  - rewrite each_function_cons, each_function_acc, total_choices_from_cons.
    rewrite length_app, IH. simpl app.
    rewrite function_block_length. unfold choices_of. simpl. lia.
Qed.

End Choices.

(** C4. The selectable entries of the choice list number the sum, over
    the functions, of 1 function choice + its endpoints + its orphans +
    its events; the headers (one per function) come on top of that count,
    and a header is never routed to a selection, toggled or not.  The list
    keeps the functions' order: for a function at position [i], all the
    entries of the functions before it come first, then its own block,
    then all the entries of the functions after it. *)
Theorem C4_choice_count_and_order
  (functions : list FunctionDef) (notExist : list (list string)) :
  List.length (filter selectable (buildChoices functions notExist))
  = total_choices functions notExist /\
  List.length (buildChoices functions notExist)
  = total_choices functions notExist + List.length functions /\
  (forall header flag o,
      select_item {| item_choice := Spacer header; toggled := flag |} o = o) /\
  (forall before func after,
      buildChoices (before ++ func :: after) notExist
      = buildChoices before notExist
          ++ function_block func (orphans_at notExist (List.length before))
          ++ each_function after (S (List.length before)) notExist []).
Proof.
  unfold buildChoices, total_choices.
  split; [apply each_function_selectable|].
  split; [apply each_function_length|].
  split.
  - intros header flag o. unfold select_item. simpl. now destruct flag.
  - intros before func after.
    rewrite each_function_app, each_function_cons.
    rewrite (each_function_acc after). reflexivity.
Qed.

(** ** The post-selection partition *)

Section Partition.

Ltac split_item it :=
  destruct it as [[header | key value label type removal] [|]];
  unfold select_item, to_removal, to_kind, value_of, type_is, item_removal,
    item_type, item_value;
  simpl; try now rewrite app_nil_r.

Ltac by_type type removal :=
  destruct removal;
  destruct (String.eqb type "endpoint") eqn:?;
  destruct (String.eqb type "function") eqn:?;
  destruct (String.eqb type "event") eqn:?;
  simpl; try reflexivity; try now rewrite app_nil_r.

Lemma select_item_removal it o :
  selectedRemovalEndpoints (select_item it o)
  = selectedRemovalEndpoints o ++ (if to_removal it then value_of it else []).
Proof. split_item it. by_type type removal. Qed.

Lemma select_item_functions it o :
  selectedFunctions (select_item it o)
  = selectedFunctions o ++ (if to_kind "function" it then value_of it else []).
Proof. split_item it. by_type type removal. Qed.

Lemma select_item_endpoints it o :
  selectedEndpoints (select_item it o)
  = selectedEndpoints o ++ (if to_kind "endpoint" it then value_of it else []).
Proof. split_item it. by_type type removal. Qed.

Lemma select_item_events it o :
  selectedEvents (select_item it o)
  = selectedEvents o ++ (if to_kind "event" it then value_of it else []).
Proof. split_item it. by_type type removal. Qed.

(** A loop whose step appends [if p it then value_of it else []] to a
    field collects the values of the items satisfying [p], in order. *)
Lemma select_loop_field (field : Options -> list string) (p : Item -> bool) :
  (forall it o, field (select_item it o)
                = field o ++ (if p it then value_of it else [])) ->
  forall its o,
    field (select_loop its o) = field o ++ values (filter p its).
Proof.
  intros Hstep its.
  induction its as [|it rest IH]; intro o; simpl.
  - now rewrite app_nil_r.
  - rewrite IH, Hstep. rewrite <- app_assoc. f_equal.
    destruct (p it); reflexivity.
Qed.

Lemma placements_exactly_one it :
  placements it = if toggled it && is_choice it then 1 else 0.
Proof.
  destruct it as [[header | key value label type removal] [|]];
    unfold placements, to_removal, to_kind, is_choice, type_is, item_removal,
      item_type; simpl; trivial.
  destruct removal;
    destruct (String.eqb type "endpoint") eqn:He;
    destruct (String.eqb type "function") eqn:Hf;
    destruct (String.eqb type "event") eqn:Hv;
    simpl; trivial;
    repeat match goal with
           | H : String.eqb _ _ = true |- _ => apply String.eqb_eq in H
           end;
    congruence.
Qed.

End Partition.

(** C5. Whatever list the prompt returns, the loop appends to the four
    selected-* sequences the values of the items routed to each, in the
    order of the list: a toggled, removal-flagged endpoint goes to the
    removals; a toggled function, endpoint or event that is not such a
    removal goes to the sequence of its type.  Every toggled item of one
    of the three types is placed in exactly one sequence, and an item
    that is not toggled in none. *)
Theorem C5_partition (its : list Item) (o : Options) :
  selectedRemovalEndpoints (select_loop its o)
  = selectedRemovalEndpoints o ++ values (filter to_removal its) /\
  selectedFunctions (select_loop its o)
  = selectedFunctions o ++ values (filter (to_kind "function") its) /\
  selectedEndpoints (select_loop its o)
  = selectedEndpoints o ++ values (filter (to_kind "endpoint") its) /\
  selectedEvents (select_loop its o)
  = selectedEvents o ++ values (filter (to_kind "event") its) /\
  (forall it, placements it = if toggled it && is_choice it then 1 else 0) /\
  (forall c, placements {| item_choice := c; toggled := false |} = 0) /\
  (forall key value label,
      to_removal {| item_choice := Entry key value label "endpoint" true;
                    toggled := true |} = true /\
      to_kind "function" {| item_choice := Entry key value label "function" false;
                            toggled := true |} = true /\
      to_kind "endpoint" {| item_choice := Entry key value label "endpoint" false;
                            toggled := true |} = true /\
      to_kind "event" {| item_choice := Entry key value label "event" false;
                         toggled := true |} = true).
Proof.
  split; [apply select_loop_field, select_item_removal|].
  split; [apply select_loop_field, select_item_functions|].
  split; [apply select_loop_field, select_item_endpoints|].
  split; [apply select_loop_field, select_item_events|].
  split; [apply placements_exactly_one|].
  split.
  - intro c. now rewrite placements_exactly_one.
  - intros key value label. repeat split.
Qed.

(** ** The dispatcher *)

Section Dispatch.

Variable E : Env.

Ltac open_deploy :=
  unfold _deploy, functions_stage, endpoints_stage, events_stage,
    removal_stage, new_BbPromise, then_resolve, bind, external, get_evt,
    modify, resolve, log, stage_calls, resolves, answer; simpl.

Ltac next_case :=
  match goal with
  | |- context [functionDeploy E ?a ?b ?c] =>
      destruct (functionDeploy E a b c) eqn:?; simpl
  | |- context [endpointDeploy E ?a ?b ?c] =>
      destruct (endpointDeploy E a b c) eqn:?; simpl
  | |- context [eventDeploy E ?a ?b ?c] =>
      destruct (eventDeploy E a b c) eqn:?; simpl
  | |- context [endpointRemove E ?a ?b ?c ?d] =>
      destruct (endpointRemove E a b c d) eqn:?; simpl
  end.

(** Every run of [_deploy], described: the selection is left as it is,
    the trace grows by a sequential run of a prefix of the due
    operations, the whole of them when the promise fulfils, and it does
    fulfil when they all resolve. *)
Lemma removal_skips_local (o : Options) st rg names skipLocal :
  In (EndpointRemove st rg names skipLocal) (stage_calls o) -> skipLocal = true.
Proof.
  unfold stage_calls.
  destruct (nothing_selected (selectedFunctions o)),
    (nothing_selected (selectedEndpoints o)),
    (nothing_selected (selectedEvents o)),
    (nothing_selected (selectedRemovalEndpoints o)); simpl;
    intuition (try discriminate; congruence).
Qed.

Lemma deploy_run (w : World) :
  exists (new : list Event) (d' : Data),
    snd (_deploy E w)
    = {| evt := {| options := options (evt w); data := d' |};
         trace := trace w ++ new |} /\
    sequential new /\
    (exists later, stage_calls (options (evt w)) = invoked new ++ later) /\
    (fst (_deploy E w) = Fulfilled tt ->
     new = resolved_steps (stage_calls (options (evt w)))) /\
    (forallb (resolves E) (stage_calls (options (evt w))) = true ->
     fst (_deploy E w) = Fulfilled tt).
Proof.
  destruct w as [[o d] t].
  destruct o as [st rg a1 a2 a3 ds sf se sv sr].
  open_deploy.
  destruct sf as [|f0 sf]; simpl; [|next_case];
    (destruct se as [|e0 se]; simpl; [|try next_case]);
    (destruct sv as [|v0 sv]; simpl; [|try next_case]);
    (destruct sr as [|r0 sr]; simpl; [|try next_case]);
    repeat rewrite <- app_assoc; simpl;
    (eexists; eexists; split;
     [first [reflexivity | rewrite app_nil_r; reflexivity]|]);
    (split; [repeat constructor|]);
    (split; [eexists; simpl; reflexivity|]);
    split; simpl; try reflexivity; try discriminate;
    intros; try reflexivity; try discriminate.
Qed.

End Dispatch.

(** C7. [_deploy] runs the stages function-deploy, endpoint-deploy,
    event-deploy, endpoint-removal in that order, each only when its
    sequence is not empty: the operations it invokes are a prefix of the
    due ones ([stage_calls]), all of them when it fulfils, and it fulfils
    when they all resolve.  The removal is invoked with [skipLocal] set.
    No operation is invoked before the one ahead of it has resolved
    ([sequential]). *)
Theorem C7_stages_in_order (E : Env) (w : World) :
  exists new : list Event,
    trace (snd (_deploy E w)) = trace w ++ new /\
    sequential new /\
    (exists later, stage_calls (options (evt w)) = invoked new ++ later) /\
    (forall st rg names skipLocal,
        In (EndpointRemove st rg names skipLocal) (invoked new) ->
        skipLocal = true) /\
    (fst (_deploy E w) = Fulfilled tt ->
     new = resolved_steps (stage_calls (options (evt w)))) /\
    (forallb (resolves E) (stage_calls (options (evt w))) = true ->
     fst (_deploy E w) = Fulfilled tt).
Proof.
  destruct (deploy_run E w) as [new [d' [Hw [Hseq [[later Hpre] [Hall Hlive]]]]]].
  exists new. rewrite Hw. simpl.
  split; [reflexivity|].
  split; [exact Hseq|].
  split; [now exists later|].
  split; [|now split].
  intros st rg names skipLocal Hin.
  apply (removal_skips_local (options (evt w)) st rg names).
  rewrite Hpre. apply in_or_app. now left.
Qed.

Lemma C7_stages_in_order_witness :
  fst (_deploy (Sample.env [] (Fulfilled [("users", "ok")])) Sample.chosen)
  = Fulfilled tt /\
  trace (snd (_deploy (Sample.env [] (Fulfilled [("users", "ok")])) Sample.chosen))
  = [Invoke (FunctionDeploy (Some "dev") (Some "us-east-1") ["users"]);
     Settle (FunctionDeploy (Some "dev") (Some "us-east-1") ["users"]) None;
     Invoke (EndpointRemove (Some "dev") (Some "us-east-1") ["users~DELETE"] true);
     Settle (EndpointRemove (Some "dev") (Some "us-east-1") ["users~DELETE"] true)
            None].
Proof.
  destruct (C7_stages_in_order (Sample.env [] (Fulfilled [("users", "ok")]))
              Sample.chosen)
    as [new [Htrace [_ [_ [_ [Hall Hlive]]]]]].
  assert (Hok : fst (_deploy (Sample.env [] (Fulfilled [("users", "ok")]))
                             Sample.chosen) = Fulfilled tt)
    by (apply Hlive; reflexivity).
  split; [exact Hok|].
  rewrite Htrace, (Hall Hok). reflexivity.
Defined.

(** Stages 2 to 4 hand a rejection of their operation on. *)
Lemma endpoints_stage_rejection (E : Env) (w : World) (e : Err) :
  selectedEndpoints (options (evt w)) <> [] ->
  endpointDeploy E (stage (options (evt w))) (region (options (evt w)))
    (selectedEndpoints (options (evt w))) = Rejected e ->
  fst (endpoints_stage E w) = Rejected e.
Proof.
  intros Hsel Hrej. unfold endpoints_stage, bind, get_evt, external. simpl.
  destruct (selectedEndpoints (options (evt w))); [congruence|]. simpl.
  now rewrite Hrej.
Qed.

Lemma events_stage_rejection (E : Env) (w : World) (e : Err) :
  selectedEvents (options (evt w)) <> [] ->
  eventDeploy E (stage (options (evt w))) (region (options (evt w)))
    (selectedEvents (options (evt w))) = Rejected e ->
  fst (events_stage E w) = Rejected e.
Proof.
  intros Hsel Hrej. unfold events_stage, bind, get_evt, external. simpl.
  destruct (selectedEvents (options (evt w))); [congruence|]. simpl.
  now rewrite Hrej.
Qed.

Lemma removal_stage_rejection (E : Env) (w : World) (e : Err) :
  selectedRemovalEndpoints (options (evt w)) <> [] ->
  endpointRemove E (stage (options (evt w))) (region (options (evt w)))
    (selectedRemovalEndpoints (options (evt w))) true = Rejected e ->
  fst (removal_stage E w) = Rejected e.
Proof.
  intros Hsel Hrej. unfold removal_stage, bind, get_evt, external. simpl.
  destruct (selectedRemovalEndpoints (options (evt w))); [congruence|]. simpl.
  now rewrite Hrej.
Qed.

(** C1, at its failing stage.  With functions selected and the function
    deploy rejecting with [e], the promise of [_deploy] never settles:
    [e] does not reach the caller.  The later stages are not run; the
    trace ends with the rejected call. *)
Theorem C1_first_stage_rejection_is_lost (E : Env) (w : World) (e : Err) :
  selectedFunctions (options (evt w)) <> [] ->
  functionDeploy E (stage (options (evt w))) (region (options (evt w)))
    (selectedFunctions (options (evt w))) = Rejected e ->
  _deploy E w
  = (Pending,
     log [Invoke (FunctionDeploy (stage (options (evt w)))
                    (region (options (evt w)))
                    (selectedFunctions (options (evt w))));
          Settle (FunctionDeploy (stage (options (evt w)))
                    (region (options (evt w)))
                    (selectedFunctions (options (evt w))))
                 (Some e)] w).
Proof.
  intros Hsel Hrej.
  unfold _deploy, functions_stage, new_BbPromise, then_resolve, bind, external.
  destruct (selectedFunctions (options (evt w))) as [|f rest] eqn:Hsf;
    [congruence|].
  simpl. now rewrite Hrej.
Qed.

Lemma C1_first_stage_rejection_is_lost_witness :
  fst (_deploy Sample.failing Sample.chosen) = Pending /\
  fst (_deploy Sample.failing Sample.chosen)
  <> Rejected (ProviderError "request failed").
Proof.
  rewrite (@C1_first_stage_rejection_is_lost Sample.failing Sample.chosen
             (ProviderError "request failed")).
  - split; [reflexivity | discriminate].
  - discriminate.
  - reflexivity.
Defined.

(** C8. Outside an interactive context [dashDeploy] is rejected with the
    error of [_validateAndPrepare], with no external call made at all (no
    prompt, no remote request, no deploy or remove), no orphan list
    computed and the four outcome mappings as empty as they started. *)
Theorem C8_not_interactive (E : Env) (c : CliOptions) :
  interactive E = false ->
  dashDeploy E c
  = (Rejected (SError not_interactive_message),
     {| evt := defaults c; trace := [] |}) /\
  notExistEndpoints (data (defaults c)) = [] /\
  outcome_of (defaults c)
  = {| out_deployedFunctions := []; out_deployedEndpoints := [];
       out_deployedEvents := []; out_removedEndpoints := [] |}.
Proof.
  intro Hoff.
  unfold dashDeploy, dashDeploy_flow, _validateAndPrepare, bind, resolve, reject.
  rewrite Hoff. simpl. repeat split.
Qed.

Lemma C8_not_interactive_witness :
  dashDeploy Sample.batch Sample.cli
  = (Rejected (SError not_interactive_message),
     {| evt := defaults Sample.cli; trace := [] |}) /\
  notExistEndpoints (data (defaults Sample.cli)) = [] /\
  outcome_of (defaults Sample.cli)
  = {| out_deployedFunctions := []; out_deployedEndpoints := [];
       out_deployedEvents := []; out_removedEndpoints := [] |}.
Proof.
  apply (C8_not_interactive Sample.batch Sample.cli). reflexivity.
Defined.

(** ** Empty sequences and the outcome mappings *)

Section Frame.

Variable E : Env.

Ltac open_flow :=
  unfold before_deploy, _validateAndPrepare, select_stage, select_region,
    _getDeployedResources, _initNotExistEndpoints, _prompt, _deploy,
    functions_stage, endpoints_stage, events_stage, removal_stage,
    new_BbPromise, then_resolve, bind, external, sync, get_evt, modify,
    resolve, reject, log; simpl.

Ltac next_answer :=
  match goal with
  | |- context [interactive E] => destruct (interactive E); simpl
  | |- context [cliPromptSelectStage E ?a ?b ?c] =>
      destruct (cliPromptSelectStage E a b c); simpl
  | |- context [cliPromptSelectRegion E ?a ?b ?c ?d ?e] =>
      destruct (cliPromptSelectRegion E a b c d e); simpl
  | |- context [getApiByName E ?a ?b ?c] =>
      destruct (getApiByName E a b c) as [[?|]| |]; simpl
  | |- context [request E ?a ?b ?c ?d ?e ?f] =>
      destruct (request E a b c d e f); simpl
  | |- context [forEach_func ?a ?b ?c] =>
      destruct (forEach_func a b c); simpl
  | |- context [cliPromptSelect E ?a ?b ?c ?d] =>
      destruct (cliPromptSelect E a b c d); simpl
  | |- context [functionDeploy E ?a ?b ?c] =>
      destruct (functionDeploy E a b c); simpl
  | |- context [endpointDeploy E ?a ?b ?c] =>
      destruct (endpointDeploy E a b c); simpl
  | |- context [eventDeploy E ?a ?b ?c] =>
      destruct (eventDeploy E a b c); simpl
  | |- context [endpointRemove E ?a ?b ?c ?d] =>
      destruct (endpointRemove E a b c d); simpl
  end.

(** Nothing ahead of [_deploy] touches the outcome mappings or invokes a
    deploy or remove operation. *)
Lemma before_deploy_quiet (w : World) :
  exists new : list Event,
    trace (snd (before_deploy E w)) = trace w ++ new /\
    existsb is_dispatch (invoked new) = false /\
    outcome_of (evt (snd (before_deploy E w))) = outcome_of (evt w).
Proof.
  destruct w as [[o d] t].
  open_flow.
  repeat next_answer;
    repeat rewrite <- app_assoc; simpl;
    (eexists; split;
     [first [reflexivity | rewrite app_nil_r; reflexivity]|]);
    split; reflexivity.
Qed.

(** [_deploy] leaves the selection alone; a stage whose sequence is empty
    invokes nothing and keeps its mapping. *)
Lemma deploy_frame (w : World) :
  exists new : list Event,
    trace (snd (_deploy E w)) = trace w ++ new /\
    options (evt (snd (_deploy E w))) = options (evt w) /\
    (selectedFunctions (options (evt w)) = [] ->
     deployedFunctions (data (evt (snd (_deploy E w))))
     = deployedFunctions (data (evt w)) /\
     existsb is_functionDeploy (invoked new) = false) /\
    (selectedEndpoints (options (evt w)) = [] ->
     deployedEndpoints (data (evt (snd (_deploy E w))))
     = deployedEndpoints (data (evt w)) /\
     existsb is_endpointDeploy (invoked new) = false) /\
    (selectedEvents (options (evt w)) = [] ->
     deployedEvents (data (evt (snd (_deploy E w))))
     = deployedEvents (data (evt w)) /\
     existsb is_eventDeploy (invoked new) = false) /\
    (selectedRemovalEndpoints (options (evt w)) = [] ->
     removedEndpoints (data (evt (snd (_deploy E w))))
     = removedEndpoints (data (evt w)) /\
     existsb is_endpointRemove (invoked new) = false).
Proof.
  destruct w as [[o d] t].
  destruct o as [st rg a1 a2 a3 ds sf se sv sr].
  open_flow.
  destruct sf as [|f0 sf]; simpl; [|next_answer];
    (destruct se as [|e0 se]; simpl; [|try next_answer]);
    (destruct sv as [|v0 sv]; simpl; [|try next_answer]);
    (destruct sr as [|r0 sr]; simpl; [|try next_answer]);
    repeat rewrite <- app_assoc; simpl;
    (eexists; split;
     [first [reflexivity | rewrite app_nil_r; reflexivity]|]);
    (split; [reflexivity|]);
    repeat split; try reflexivity; try discriminate.
Qed.

Lemma invoked_app (t1 t2 : list Event) :
  invoked (t1 ++ t2) = invoked t1 ++ invoked t2.
Proof. unfold invoked. apply flat_map_app. Qed.

Lemma no_dispatch_no_kind (p : Call -> bool) (calls : list Call) :
  (forall c, p c = true -> is_dispatch c = true) ->
  existsb is_dispatch calls = false ->
  existsb p calls = false.
Proof.
  intros Hp Hnone.
  induction calls as [|c rest IH]; simpl in *; trivial.
  apply orb_false_iff in Hnone. destruct Hnone as [Hc Hrest].
  rewrite (IH Hrest), orb_false_r.
  destruct (p c) eqn:Hpc; trivial.
  rewrite (Hp c Hpc) in Hc. discriminate.
Qed.

(** The flow of [dashDeploy] is the chain ahead of [_deploy], then
    [_deploy], then the return of [evt]. *)
Lemma dashDeploy_flow_split :
  dashDeploy_flow E = before_deploy E >> _deploy E >> get_evt.
Proof. reflexivity. Qed.

End Frame.

Lemma dashDeploy_flow_cases (E : Env) (w0 : World) :
  dashDeploy_flow E w0
  = match before_deploy E w0 with
    | (Fulfilled _, w1) =>
        match _deploy E w1 with
        | (Fulfilled _, w2) => (Fulfilled (evt w2), w2)
        | (Rejected e, w2) => (Rejected e, w2)
        | (Pending, w2) => (Pending, w2)
        end
    | (Rejected e, w1) => (Rejected e, w1)
    | (Pending, w1) => (Pending, w1)
    end.
Proof.
  rewrite dashDeploy_flow_split.
  unfold bind at 1 2, get_evt.
  destruct (before_deploy E w0) as [[[]|e1|] w1]; reflexivity.
Qed.

(** The world [dashDeploy] ends in is the one after [_deploy] when the
    chain ahead of it fulfils, and the one that chain stopped in
    otherwise; a fulfilled [dashDeploy] returns the [evt] of that world. *)
Lemma dashDeploy_end (E : Env) (c : CliOptions) :
  let w0 := {| evt := defaults c; trace := [] |} in
  (forall e, fst (dashDeploy E c) = Fulfilled e ->
             e = evt (snd (dashDeploy E c))) /\
  ((fst (before_deploy E w0) = Fulfilled tt /\
    snd (dashDeploy E c) = snd (_deploy E (snd (before_deploy E w0)))) \/
   (fst (before_deploy E w0) <> Fulfilled tt /\
    snd (dashDeploy E c) = snd (before_deploy E w0))).
Proof.
  intro w0. unfold dashDeploy. fold w0. rewrite dashDeploy_flow_cases.
  destruct (before_deploy E w0) as [[[]|e1|] w1]; simpl.
  - destruct (_deploy E w1) as [[[]|e2|] w2]; simpl;
      (split; [intros e He; congruence | left; split; reflexivity]).
  - split; [discriminate | right; split; [discriminate | reflexivity]].
  - split; [discriminate | right; split; [discriminate | reflexivity]].
Qed.

(** C6. In every run of [dashDeploy], a selected-* sequence that is empty
    means that its operation was not invoked anywhere in the run and that
    its outcome mapping is the empty mapping put there at entry; so only
    a stage whose sequence is not empty can have filled its mapping.  A
    fulfilled run returns the [evt] holding these mappings. *)
Theorem C6_empty_sequence_skips_stage (E : Env) (c : CliOptions) :
  (forall e, fst (dashDeploy E c) = Fulfilled e ->
             e = evt (snd (dashDeploy E c))) /\
  (selectedFunctions (options (evt (snd (dashDeploy E c)))) = [] ->
   deployedFunctions (data (evt (snd (dashDeploy E c)))) = [] /\
   existsb is_functionDeploy (invoked (trace (snd (dashDeploy E c)))) = false) /\
  (selectedEndpoints (options (evt (snd (dashDeploy E c)))) = [] ->
   deployedEndpoints (data (evt (snd (dashDeploy E c)))) = [] /\
   existsb is_endpointDeploy (invoked (trace (snd (dashDeploy E c)))) = false) /\
  (selectedEvents (options (evt (snd (dashDeploy E c)))) = [] ->
   deployedEvents (data (evt (snd (dashDeploy E c)))) = [] /\
   existsb is_eventDeploy (invoked (trace (snd (dashDeploy E c)))) = false) /\
  (selectedRemovalEndpoints (options (evt (snd (dashDeploy E c)))) = [] ->
   removedEndpoints (data (evt (snd (dashDeploy E c)))) = [] /\
   existsb is_endpointRemove (invoked (trace (snd (dashDeploy E c)))) = false).
Proof.
  destruct (dashDeploy_end E c) as [Hret Hend].
  split; [exact Hret|].
  set (w0 := {| evt := defaults c; trace := [] |}) in *.
  destruct (before_deploy_quiet E w0) as [new1 [Ht1 [Hq1 Ho1]]].
  simpl in Ht1.
  assert (Hkind : forall p : Call -> bool,
             (forall k, p k = true -> is_dispatch k = true) ->
             existsb p (invoked new1) = false).
  { intros p Hp. now apply no_dispatch_no_kind. }
  assert (Hf : deployedFunctions (data (evt (snd (before_deploy E w0)))) = [])
    by exact (f_equal out_deployedFunctions Ho1).
  assert (He : deployedEndpoints (data (evt (snd (before_deploy E w0)))) = [])
    by exact (f_equal out_deployedEndpoints Ho1).
  assert (Hv : deployedEvents (data (evt (snd (before_deploy E w0)))) = [])
    by exact (f_equal out_deployedEvents Ho1).
  assert (Hr : removedEndpoints (data (evt (snd (before_deploy E w0)))) = [])
    by exact (f_equal out_removedEndpoints Ho1).
  assert (Kf : existsb is_functionDeploy (invoked new1) = false).
  { apply Hkind. intros k Hk. unfold is_dispatch. now rewrite Hk. }
  assert (Ke : existsb is_endpointDeploy (invoked new1) = false).
  { apply Hkind. intros k Hk. unfold is_dispatch. rewrite Hk.
    now rewrite orb_true_r. }
  assert (Kv : existsb is_eventDeploy (invoked new1) = false).
  { apply Hkind. intros k Hk. unfold is_dispatch. rewrite Hk.
    now rewrite !orb_true_r. }
  assert (Kr : existsb is_endpointRemove (invoked new1) = false).
  { apply Hkind. intros k Hk. unfold is_dispatch. rewrite Hk.
    now rewrite !orb_true_r. }
  destruct Hend as [[_ ->] | [_ ->]].
  - destruct (deploy_frame E (snd (before_deploy E w0)))
      as [new2 [Ht2 [Hopt [Ff [Fe [Fv Fr]]]]]].
    rewrite Ht2, Ht1, Hopt, invoked_app, !existsb_app.
    rewrite Kf, Ke, Kv, Kr. simpl.
    split; [|split; [|split]]; intro Hsel.
    + destruct (Ff Hsel) as [-> ->]. now split.
    + destruct (Fe Hsel) as [-> ->]. now split.
    + destruct (Fv Hsel) as [-> ->]. now split.
    + destruct (Fr Hsel) as [-> ->]. now split.
  - rewrite Ht1. simpl.
    split; [|split; [|split]]; intros _; split; assumption.
Qed.

Lemma C6_empty_sequence_skips_stage_witness :
  deployedEndpoints
    (data (evt (snd (dashDeploy
                       (Sample.env ["users"; "users~DELETE"]
                                   (Fulfilled [("users", "ok")]))
                       Sample.cli)))) = [] /\
  existsb is_endpointDeploy
    (invoked (trace (snd (dashDeploy
                            (Sample.env ["users"; "users~DELETE"]
                                        (Fulfilled [("users", "ok")]))
                            Sample.cli)))) = false.
Proof.
  apply (C6_empty_sequence_skips_stage
           (Sample.env ["users"; "users~DELETE"] (Fulfilled [("users", "ok")]))
           Sample.cli).
  reflexivity.
Defined.

(** ** The listing of deployed resources *)

(** C9, as the code has it.  The name of the API is the region variable
    [apiGatewayApi], or the project's name when that variable is absent
    or empty.  When the name resolves to an API and the listing request
    answers, [_getDeployedResources] has made exactly one
    [getResources] request, for that API's identifier and with the limit
    500, and fulfils with the response of that one request as it is. *)
Theorem C9_single_listing_request
  (E : Env) (w : World) (api : RestApiData) (res : Resources) :
  getApiByName E (restApiName E (options (evt w)))
    (stage (options (evt w))) (region (options (evt w)))
  = Fulfilled (Some api) ->
  request E "APIGateway" "getResources" (api_id api) 500
    (stage (options (evt w))) (region (options (evt w)))
  = Fulfilled res ->
  _getDeployedResources E w
  = (Fulfilled res,
     log [Invoke InitProviders;
          Invoke (GetApiByName (restApiName E (options (evt w)))
                    (stage (options (evt w))) (region (options (evt w))));
          Settle (GetApiByName (restApiName E (options (evt w)))
                    (stage (options (evt w))) (region (options (evt w))))
                 None;
          Invoke (AwsRequest "APIGateway" "getResources" (api_id api) 500
                    (stage (options (evt w))) (region (options (evt w))));
          Settle (AwsRequest "APIGateway" "getResources" (api_id api) 500
                    (stage (options (evt w))) (region (options (evt w))))
                 None] w) /\
  restApiName E (options (evt w))
  = match Js.get (regionVariables E (stage (options (evt w)))
                    (region (options (evt w)))) "apiGatewayApi" with
    | Some v => if String.eqb v "" then projectName E else v
    | None => projectName E
    end.
Proof.
  intros Hapi Hreq. split.
  - unfold _getDeployedResources, bind, get_evt, sync, external, resolve.
    simpl. rewrite Hapi. simpl. rewrite Hreq. simpl.
    unfold log. simpl. now rewrite <- !app_assoc.
  - unfold restApiName, Js.truthy, Js.to_string.
    destruct (Js.get _ "apiGatewayApi") as [v|]; trivial.
    now destruct (String.eqb v "").
Qed.

Lemma C9_single_listing_request_witness :
  fst (_getDeployedResources Sample.crowded_env Sample.started)
  = Fulfilled (Sample.paged_listing Sample.crowded 500).
Proof.
  rewrite (proj1 (@C9_single_listing_request Sample.crowded_env Sample.started
                    {| api_id := "api1" |}
                    (Sample.paged_listing Sample.crowded 500)
                    eq_refl eq_refl)).
  reflexivity.
Defined.

(** Against a remote holding 501 resources and serving pages of at most
    the requested size, the fetch does not end with the whole collection:
    it stops after the first 500. *)
Lemma C9_whole_collection_counterexample :
  ~ retrieves_whole_collection Sample.crowded_env Sample.started Sample.crowded.
Proof.
  intros [res [Hres Hall]].
  vm_compute in Hres. injection Hres as <-.
  apply (f_equal (@List.length _)) in Hall.
  vm_compute in Hall. discriminate.
Qed.

(** ** The options that are never read *)

Section Blind.

Variable E : Env.

Lemma blind_bind {A B} (p : promise A) (f : A -> promise B) :
  blind p -> (forall a, blind (f a)) -> blind (p >>= f).
Proof.
  intros Hp Hf w. unfold bind. rewrite Hp.
  destruct (p w) as [[a|e|] w']; simpl; trivial.
  apply Hf.
Qed.

(** Reading [evt] is harmless as long as what is done with it does not
    depend on the blanked fields. *)
Lemma blind_get_evt {B} (f : Evt -> promise B) :
  (forall e, f (set_options forget e) = f e) ->
  (forall e, blind (f e)) ->
  blind (get_evt >>= f).
Proof.
  intros Hsame Hf w. unfold bind, get_evt. simpl.
  rewrite Hsame. apply Hf.
Qed.

Lemma blind_resolve {A} (a : A) : blind (resolve a).
Proof. intro w. reflexivity. Qed.

Lemma blind_reject {A} (e : Err) : blind (@reject A e).
Proof. intro w. reflexivity. Qed.

Lemma blind_external {A} (c : Call) (r : settle A) : blind (external c r).
Proof. intro w. destruct r; reflexivity. Qed.

Lemma blind_sync (c : Call) : blind (sync c).
Proof. intro w. reflexivity. Qed.

Lemma blind_modify (g : Evt -> Evt) :
  (forall e, g (set_options forget e) = set_options forget (g e)) ->
  blind (modify g).
Proof.
  intros Hg w. unfold modify, forget_world. simpl. now rewrite Hg.
Qed.

Lemma select_item_forget it o :
  select_item it (forget o) = forget (select_item it o).
Proof.
  destruct it as [[header | key value label type removal] [|]];
    unfold select_item; simpl; trivial.
  destruct removal, (String.eqb type "endpoint"), (String.eqb type "function"),
    (String.eqb type "event"); reflexivity.
Qed.

Lemma select_loop_forget its o :
  select_loop its (forget o) = forget (select_loop its o).
Proof.
  revert o. induction its as [|it rest IH]; intro o; simpl; trivial.
  now rewrite select_item_forget, IH.
Qed.

Create HintDb blind.
Hint Resolve blind_resolve blind_reject blind_external blind_sync : blind.

Ltac blind_step :=
  first
    [ apply blind_get_evt; [intro; reflexivity | intro]
    | apply blind_bind; [|intro]
    | apply blind_modify; intro; reflexivity
    | solve [auto with blind] ].

Lemma blind_validateAndPrepare : blind (_validateAndPrepare E).
Proof.
  unfold _validateAndPrepare. destruct (negb (interactive E)); auto with blind.
Qed.

Lemma blind_select_stage : blind (select_stage E).
Proof. unfold select_stage. repeat blind_step. Qed.

Lemma blind_select_region : blind (select_region E).
Proof. unfold select_region. repeat blind_step. Qed.

Lemma blind_getDeployedResources : blind (_getDeployedResources E).
Proof.
  unfold _getDeployedResources.
  apply blind_get_evt; [intro; reflexivity | intro e].
  apply blind_bind; [repeat blind_step | intros [api|]; repeat blind_step].
Qed.

Lemma blind_initNotExistEndpoints : blind (_initNotExistEndpoints E).
Proof.
  unfold _initNotExistEndpoints.
  apply blind_get_evt; [intro; reflexivity | intro e].
  destruct (forEach_func _ _ _); repeat blind_step.
Qed.

Lemma blind_prompt : blind (_prompt E).
Proof.
  unfold _prompt.
  apply blind_get_evt; [intro; reflexivity | intro e].
  apply blind_bind; [repeat blind_step | intro its].
  apply blind_bind; [|intro; apply blind_sync].
  apply blind_modify. intro e'. unfold set_options. simpl.
  now rewrite select_loop_forget.
Qed.

Lemma blind_functions_stage : blind (functions_stage E).
Proof.
  intro w. unfold functions_stage, new_BbPromise, then_resolve, bind,
    external, modify. simpl.
  destruct (nothing_selected (selectedFunctions (options (evt w)))); trivial.
  destruct (functionDeploy E _ _ _); reflexivity.
Qed.

Lemma blind_endpoints_stage : blind (endpoints_stage E).
Proof.
  unfold endpoints_stage.
  apply blind_get_evt; [intro; reflexivity | intro e].
  destruct (nothing_selected _); repeat blind_step.
Qed.

Lemma blind_events_stage : blind (events_stage E).
Proof.
  unfold events_stage.
  apply blind_get_evt; [intro; reflexivity | intro e].
  destruct (nothing_selected _); repeat blind_step.
Qed.

Lemma blind_removal_stage : blind (removal_stage E).
Proof.
  unfold removal_stage.
  apply blind_get_evt; [intro; reflexivity | intro e].
  destruct (nothing_selected _); repeat blind_step.
Qed.

Lemma blind_deploy : blind (_deploy E).
Proof.
  unfold _deploy.
  apply blind_bind; [|intro; apply blind_removal_stage].
  apply blind_bind; [|intro; apply blind_events_stage].
  apply blind_bind; [|intro; apply blind_endpoints_stage].
  apply blind_functions_stage.
Qed.

Lemma blind_before_deploy : blind (before_deploy E).
Proof.
  unfold before_deploy.
  apply blind_bind; [|intro; apply blind_prompt].
  apply blind_bind; [|intro; apply blind_initNotExistEndpoints].
  apply blind_bind; [|intro; apply blind_modify; intro; reflexivity].
  apply blind_bind; [|intro; apply blind_getDeployedResources].
  apply blind_bind; [|intro; apply blind_select_region].
  apply blind_bind; [|intro; apply blind_select_stage].
  apply blind_bind; [|intro; apply blind_validateAndPrepare].
  apply blind_resolve.
Qed.

End Blind.

(** Two worlds that are equal once blanked agree on the trace, the data
    and the selection. *)
Lemma forget_world_agree (w1 w2 : World) :
  forget_world w1 = forget_world w2 ->
  trace w1 = trace w2 /\
  data (evt w1) = data (evt w2) /\
  selection (options (evt w1)) = selection (options (evt w2)).
Proof.
  intro H.
  split; [exact (f_equal trace H)|].
  split; [exact (f_equal (fun w => data (evt w)) H)|].
  exact (f_equal (fun w => selection (options (evt w))) H).
Qed.

(** C10. Two invocations with the same stage and region options, and any
    values of aliasFunction, aliasEndpoint, aliasRestApi and description,
    run alike under the same environment: the same trace of external
    calls (the choice list handed to the prompt is an argument of one of
    them), the same selection, the same data, and the same outcome
    returned to the caller.  At entry each alias is replaced by null when
    it is falsy; nothing reads them afterwards. *)
Theorem C10_aliases_not_read (E : Env) (c1 c2 : CliOptions) :
  opt_stage c1 = opt_stage c2 ->
  opt_region c1 = opt_region c2 ->
  trace (snd (dashDeploy E c1)) = trace (snd (dashDeploy E c2)) /\
  selection (options (evt (snd (dashDeploy E c1))))
  = selection (options (evt (snd (dashDeploy E c2)))) /\
  data (evt (snd (dashDeploy E c1))) = data (evt (snd (dashDeploy E c2))) /\
  returned (fst (dashDeploy E c1)) = returned (fst (dashDeploy E c2)) /\
  aliasFunction (options (defaults c1)) = Js.or_null (opt_aliasFunction c1) /\
  aliasEndpoint (options (defaults c1)) = Js.or_null (opt_aliasEndpoint c1) /\
  aliasRestApi (options (defaults c1)) = Js.or_null (opt_aliasRestApi c1) /\
  Js.or_null (Some "") = None /\ Js.or_null None = None.
Proof.
  intros Hstage Hregion.
  set (body := before_deploy E >> _deploy E).
  assert (Hbody : blind body).
  { apply blind_bind; [apply blind_before_deploy | intro; apply blind_deploy]. }
  set (w1 := {| evt := defaults c1; trace := [] |}).
  set (w2 := {| evt := defaults c2; trace := [] |}).
  assert (Hstart : forget_world w1 = forget_world w2).
  { unfold forget_world, w1, w2, defaults, set_options, forget. simpl.
    now rewrite Hstage, Hregion. }
  pose proof (Hbody w1) as H1. pose proof (Hbody w2) as H2.
  rewrite Hstart, H2 in H1.
  pose proof (f_equal fst H1) as Hfst. pose proof (f_equal snd H1) as Hsnd.
  cbv beta iota delta [fst snd] in Hfst, Hsnd. clear H1 H2.
  assert (Hrun : forall c,
             dashDeploy E c
             = match body {| evt := defaults c; trace := [] |} with
               | (Fulfilled _, w') => (Fulfilled (evt w'), w')
               | (Rejected e, w') => (Rejected e, w')
               | (Pending, w') => (Pending, w')
               end).
  { intro c. unfold dashDeploy. rewrite dashDeploy_flow_split.
    fold body. unfold bind at 1, get_evt.
    destruct (body _) as [[[]|e|] w']; reflexivity. }
  rewrite !Hrun. fold w1 w2.
  destruct (body w1) as [s1 v1], (body w2) as [s2 v2].
  cbv beta iota in Hfst, Hsnd. subst s2.
  destruct (forget_world_agree Hsnd) as [Ht [Hd Hs]].
  assert (Hout : outcome_of (evt v2) = outcome_of (evt v1)).
  { unfold outcome_of. now rewrite Hd. }
  destruct s1 as [[]|e|]; simpl; rewrite ?Hout; auto 10.
Qed.

Lemma C10_aliases_not_read_witness :
  returned (fst (dashDeploy
                   (Sample.env ["users"; "users~DELETE"]
                               (Fulfilled [("users", "ok")]))
                   Sample.cli))
  = returned (fst (dashDeploy
                     (Sample.env ["users"; "users~DELETE"]
                                 (Fulfilled [("users", "ok")]))
                     Sample.cli_aliased)).
Proof.
  apply (@C10_aliases_not_read
           (Sample.env ["users"; "users~DELETE"] (Fulfilled [("users", "ok")]))
           Sample.cli Sample.cli_aliased eq_refl eq_refl).
Defined.

(** ** The sample project, run *)

(** [users] has GET locally and GET, DELETE deployed: DELETE is its only
    orphan. *)
Example users_orphans :
  funcNotExistEndpoints_of Sample.users (items Sample.listing)
  = ["users~DELETE"].
Proof. reflexivity. Qed.

(** The operator toggles the function and the orphan: only the function
    deploy and the endpoint removal are invoked. *)
Example users_function_and_removal :
  let run := dashDeploy (Sample.env ["users"; "users~DELETE"]
                                    (Fulfilled [("users", "ok")]))
                        Sample.cli in
  selection (options (evt (snd run)))
  = (["users"], [], [], ["users~DELETE"]) /\
  filter is_dispatch (invoked (trace (snd run)))
  = [FunctionDeploy (Some "dev") (Some "us-east-1") ["users"];
     EndpointRemove (Some "dev") (Some "us-east-1") ["users~DELETE"] true] /\
  returned (fst run)
  = Fulfilled {| out_deployedFunctions := [("users", "ok")];
                 out_deployedEndpoints := [];
                 out_deployedEvents := [];
                 out_removedEndpoints := [("users~DELETE", "gone")] |}.
Proof. repeat split. Qed.

(** The listing request fails: the run ends with that error, before any
    choice list is shown and with nothing dispatched. *)
Example listing_failure_stops_the_run :
  let run := dashDeploy Sample.unreachable Sample.cli in
  fst run = Rejected (ProviderError "request failed") /\
  existsb (fun c => match c with
                    | CliPromptSelect _ _ _ _ => true
                    | _ => is_dispatch c
                    end)
          (invoked (trace (snd run))) = false.
Proof. split; reflexivity. Qed.

(** With every later stage selected too, a rejected endpoint deploy does
    reach the caller, and the stages after it are not run. *)
Example second_stage_rejection_propagates :
  let E := Sample.rejecting_endpoints in
  let run := dashDeploy E Sample.cli in
  fst run = Rejected (ProviderError "request failed") /\
  filter is_dispatch (invoked (trace (snd run)))
  = [FunctionDeploy (Some "dev") (Some "us-east-1") ["users"];
     EndpointDeploy (Some "dev") (Some "us-east-1") ["users~GET"]].
Proof. split; reflexivity. Qed.

(** * Further properties of the action *)

(** ** Orphan detection, continued *)

Lemma funcNotExistEndpoints_of_found func its r :
  every_search its (getName func) NotFound = FoundItem r ->
  funcNotExistEndpoints_of func its
  = orphan_keys (getName func) (getAllEndpoints func)
      (Js.for_in_keys (resourceMethods r)).
Proof.
  intro Hr.
  assert (Hpp : pathPart r = Some (getName func)).
  { apply every_search_first in Hr. now destruct Hr as [? [? [_ [? _]]]]. }
  unfold funcNotExistEndpoints_of. rewrite Hr, methods_loop_filter.
  unfold orphan_keys, orphan_key, found_pathPart, found_resourceMethods.
  now rewrite Hpp.
Qed.

(** X1. The orphan list of a function with a matching resource is, in the
    order the remote mapping enumerates its methods, the key
    "<name>~<method>" of each method that no local endpoint has, and
    nothing else. *)
Theorem X1_orphans_in_remote_order
  (E : Env) (w : World) (res : Resources) (i : nat) (f : FunctionDef)
  (r : DeployedResource) :
  deployedResources (data (evt w)) = Listing res ->
  notExistEndpoints (data (evt w)) = [] ->
  nth_error (functionsByCwd E) i = Some f ->
  every_search (items res) (getName f) NotFound = FoundItem r ->
  fst (_initNotExistEndpoints E w) = Fulfilled true /\
  nth_error (notExistEndpoints (data (evt (snd (_initNotExistEndpoints E w))))) i
  = Some (orphan_keys (getName f) (getAllEndpoints f)
            (Js.for_in_keys (resourceMethods r))).
Proof.
  intros Hres Hnil Hf Hr.
  rewrite (initNotExistEndpoints_run E w Hres Hnil). simpl.
  split; [reflexivity|].
  rewrite (map_nth_error (fun g => funcNotExistEndpoints_of g (items res)) _ _ Hf).
  now rewrite (funcNotExistEndpoints_of_found _ _ Hr).
Qed.

Lemma X1_orphans_in_remote_order_witness :
  fst (_initNotExistEndpoints Sample.quiet Sample.fetched) = Fulfilled true /\
  nth_error
    (notExistEndpoints
       (data (evt (snd (_initNotExistEndpoints Sample.quiet Sample.fetched))))) 0
  = Some (orphan_keys "users" (getAllEndpoints Sample.users) ["GET"; "DELETE"]).
Proof.
  apply (@X1_orphans_in_remote_order Sample.quiet Sample.fetched Sample.listing
           0 Sample.users Sample.users_resource);
    reflexivity.
Defined.

Lemma has_method_by_methods (l1 l2 : list EndpointDef) (m : string) :
  map endpoint_method l1 = map endpoint_method l2 ->
  has_method l1 m = has_method l2 m.
Proof.
  revert l2. induction l1 as [|e1 l1 IH]; intros [|e2 l2] H; simpl in *;
    try discriminate; trivial.
  injection H as He Hl. rewrite He. f_equal. now apply IH.
Qed.

(** X2. The detection compares methods only.  Two local functions of the
    same name whose endpoints carry the same methods in the same order
    get the same orphan list, whatever the paths of those endpoints and
    whatever their events. *)
Theorem X2_orphans_ignore_paths
  (f1 f2 : FunctionDef) (its : list DeployedResource) :
  getName f1 = getName f2 ->
  map endpoint_method (getAllEndpoints f1)
  = map endpoint_method (getAllEndpoints f2) ->
  funcNotExistEndpoints_of f1 its = funcNotExistEndpoints_of f2 its.
Proof.
  intros Hname Hmethods.
  unfold funcNotExistEndpoints_of. rewrite Hname, !methods_loop_filter.
  do 2 f_equal. apply filter_ext. intro m.
  now rewrite (has_method_by_methods _ _ m Hmethods).
Qed.

Lemma X2_orphans_ignore_paths_witness :
  funcNotExistEndpoints_of Sample.users (items Sample.listing)
  = funcNotExistEndpoints_of Sample.users_moved (items Sample.listing).
Proof.
  apply (@X2_orphans_ignore_paths Sample.users Sample.users_moved); reflexivity.
Defined.

(** X3. [_initNotExistEndpoints] appends: with a listing in place it
    fulfils and extends whatever [notExistEndpoints] already holds by one
    list per local function.  Run a second time it appends the same lists
    again, so the lists of the second run sit after those of the first. *)
Theorem X3_initNotExistEndpoints_appends
  (E : Env) (w : World) (res : Resources) :
  deployedResources (data (evt w)) = Listing res ->
  let found := map (fun f => funcNotExistEndpoints_of f (items res))
                   (functionsByCwd E) in
  _initNotExistEndpoints E w
  = (Fulfilled true,
     {| evt := set_data
                 (with_notExistEndpoints
                    (notExistEndpoints (data (evt w)) ++ found))
                 (evt w);
        trace := trace w |}) /\
  notExistEndpoints
    (data (evt (snd (_initNotExistEndpoints E
                       (snd (_initNotExistEndpoints E w))))))
  = notExistEndpoints (data (evt w)) ++ found ++ found.
Proof.
  intros Hres found.
  assert (Hrun : forall v, deployedResources (data (evt v)) = Listing res ->
            _initNotExistEndpoints E v
            = (Fulfilled true,
               {| evt := set_data
                           (with_notExistEndpoints
                              (notExistEndpoints (data (evt v)) ++ found))
                           (evt v);
                  trace := trace v |})).
  { intros v Hv. unfold _initNotExistEndpoints, bind, get_evt.
    rewrite Hv, forEach_func_listing. reflexivity. }
  split; [now apply Hrun|].
  rewrite (Hrun w Hres). simpl.
  rewrite Hrun by (simpl; exact Hres). simpl.
  now rewrite app_assoc.
Qed.

Lemma X3_initNotExistEndpoints_appends_witness :
  notExistEndpoints
    (data (evt (snd (_initNotExistEndpoints Sample.quiet
                       (snd (_initNotExistEndpoints Sample.quiet
                               Sample.fetched))))))
  = [["users~DELETE"]; ["users~DELETE"]].
Proof.
  rewrite (proj2 (@X3_initNotExistEndpoints_appends Sample.quiet Sample.fetched
                    Sample.listing eq_refl)).
  reflexivity.
Defined.

(** X4. When no listing was stored ([deployedResources] is still the
    empty array of the defaults), the step throws on the first local
    function: as a [then] callback it rejects with a type error and
    leaves [evt] and the trace as they were.  With no local function at
    all it does not look at the listing and fulfils, adding nothing. *)
Theorem X4_initNotExistEndpoints_without_listing (E : Env) (w : World) :
  deployedResources (data (evt w)) = EmptyArray ->
  (functionsByCwd E <> [] ->
   exists message,
     _initNotExistEndpoints E w = (Rejected (TypeError message), w)) /\
  (functionsByCwd E = [] ->
   fst (_initNotExistEndpoints E w) = Fulfilled true /\
   trace (snd (_initNotExistEndpoints E w)) = trace w /\
   data (evt (snd (_initNotExistEndpoints E w))) = data (evt w) /\
   options (evt (snd (_initNotExistEndpoints E w))) = options (evt w)).
Proof.
  intro Hempty.
  unfold _initNotExistEndpoints, bind, get_evt. rewrite Hempty. split.
  - intro Hsome. destruct (functionsByCwd E) as [|f rest]; [congruence|].
    simpl. now eexists.
  - intros ->. simpl. repeat split.
    destruct w as [[o d] t]. simpl in *. now destruct d.
Qed.

Lemma X4_initNotExistEndpoints_without_listing_witness :
  exists message,
    _initNotExistEndpoints Sample.quiet Sample.started
    = (Rejected (TypeError message), Sample.started).
Proof.
  apply (proj1 (@X4_initNotExistEndpoints_without_listing Sample.quiet
                  Sample.started eq_refl)).
  discriminate.
Defined.

(** ** The choice list and the selection, continued *)

Lemma each_function_aligned (functions : list FunctionDef)
  (g : FunctionDef -> list string) (ahead : list (list string)) :
  each_function functions (List.length ahead) (ahead ++ map g functions) []
  = flat_map (fun f => function_block f (g f)) functions.
Proof.
  revert ahead.
  induction functions as [|f rest IH]; intro ahead; trivial.
  rewrite each_function_cons, each_function_acc.
  assert (Hat : orphans_at (ahead ++ map g (f :: rest)) (List.length ahead)
                = g f).
  { unfold orphans_at. rewrite nth_error_app2 by lia.
    now rewrite Nat.sub_diag. }
  rewrite Hat.
  specialize (IH (ahead ++ [g f])).
  rewrite length_app, <- app_assoc in IH. simpl in IH.
  rewrite Nat.add_1_r in IH.
  simpl map. rewrite IH. reflexivity.
Qed.

(** X5. The orphan lists and the choice list line up.  From the state
    [dashDeploy] sets up (a listing stored, no orphan list yet), the
    choice list built from what [_initNotExistEndpoints] leaves is, for
    each local function in turn, its header, its function entry, its
    endpoints, its own orphans and its events. *)
Theorem X5_choices_carry_own_orphans
  (E : Env) (w : World) (res : Resources) :
  deployedResources (data (evt w)) = Listing res ->
  notExistEndpoints (data (evt w)) = [] ->
  buildChoices (functionsByCwd E)
    (notExistEndpoints (data (evt (snd (_initNotExistEndpoints E w)))))
  = flat_map
      (fun f => function_block f (funcNotExistEndpoints_of f (items res)))
      (functionsByCwd E).
Proof.
  intros Hres Hnil.
  rewrite (initNotExistEndpoints_run E w Hres Hnil). simpl.
  exact (each_function_aligned (functionsByCwd E)
           (fun f => funcNotExistEndpoints_of f (items res)) []).
Qed.

Lemma X5_choices_carry_own_orphans_witness :
  buildChoices (functionsByCwd Sample.lonely)
    (notExistEndpoints
       (data (evt (snd (_initNotExistEndpoints Sample.lonely Sample.fetched)))))
  = function_block Sample.users ["users~DELETE"]
      ++ function_block Sample.orders [].
Proof.
  rewrite (@X5_choices_carry_own_orphans Sample.lonely Sample.fetched
             Sample.listing eq_refl eq_refl).
  reflexivity.
Defined.

Section Everything.

Lemma select_loop_app (its1 its2 : list Item) (o : Options) :
  select_loop (its1 ++ its2) o = select_loop its2 (select_loop its1 o).
Proof.
  revert o. induction its1 as [|it rest IH]; intro o; simpl; trivial.
Qed.

(** Entries all made the same way, all toggled: they are routed, or not,
    together. *)
Lemma values_of_entries {A} (mk : A -> Choice) (value_of_x : A -> string)
  (p : Item -> bool) (routed : bool) (l : list A) :
  (forall x, p (toggled_on (mk x)) = routed) ->
  (forall x, item_value (toggled_on (mk x)) = Some (value_of_x x)) ->
  values (filter p (toggle_all (map mk l)))
  = if routed then map value_of_x l else [].
Proof.
  intros Hp Hv. unfold toggle_all.
  induction l as [|x rest IH]; simpl.
  - now destruct routed.
  - rewrite Hp. destruct routed; simpl; trivial.
    unfold value_of at 1. rewrite Hv. simpl. f_equal. exact IH.
Qed.

Lemma values_app (its1 its2 : list Item) :
  values (its1 ++ its2) = values its1 ++ values its2.
Proof. unfold values. apply flat_map_app. Qed.

(** What one function's block contributes when all of it is toggled. *)
Lemma block_values (p : Item -> bool) (func : FunctionDef)
  (orphans : list string) :
  values (filter p (toggle_all (function_block func orphans)))
  = values (filter p [toggled_on (Spacer (getName func))])
    ++ values (filter p [toggled_on (function_choice func)])
    ++ values (filter p (toggle_all (map endpoint_choice (getAllEndpoints func))))
    ++ values (filter p (toggle_all (map removal_choice orphans)))
    ++ values (filter p (toggle_all (map event_choice (getAllEvents func)))).
Proof.
  unfold function_block, toggle_all.
  change [Spacer (getName func); function_choice func]
    with ([Spacer (getName func)] ++ [function_choice func]).
  rewrite <- !app_assoc, !map_app, !filter_app, !values_app. reflexivity.
Qed.

Lemma all_toggled_values (p : Item -> bool)
  (functions : list FunctionDef) (g : FunctionDef -> list string)
  (per_function : FunctionDef -> list string) :
  (forall f, values (filter p (toggle_all (function_block f (g f))))
             = per_function f) ->
  values (filter p (toggle_all
                      (flat_map (fun f => function_block f (g f)) functions)))
  = flat_map per_function functions.
Proof.
  intro Hblock. induction functions as [|f rest IH]; trivial.
  cbn [flat_map]. unfold toggle_all in *.
  rewrite map_app, filter_app, values_app.
  now rewrite Hblock, IH.
Qed.

End Everything.

(** X6. When the operator toggles every entry of the choice list built
    from aligned orphan lists (one list [g f] per function [f]), the loop
    collects, in the functions' order: every function name, every
    endpoint key "<path>~<method>", every orphan, every event name; each
    in its own sequence, and an orphan never among the endpoints to
    deploy. *)
Theorem X6_everything_toggled
  (functions : list FunctionDef) (g : FunctionDef -> list string)
  (o : Options) :
  let chosen := select_loop
                  (toggle_all (buildChoices functions (map g functions))) o in
  selectedFunctions chosen = selectedFunctions o ++ map getName functions /\
  selectedEndpoints chosen
  = selectedEndpoints o
      ++ flat_map (fun f => map endpoint_key (getAllEndpoints f)) functions /\
  selectedRemovalEndpoints chosen
  = selectedRemovalEndpoints o ++ flat_map g functions /\
  selectedEvents chosen
  = selectedEvents o
      ++ flat_map (fun f => map event_name (getAllEvents f)) functions.
Proof.
  intro chosen. unfold chosen, buildChoices.
  pose proof (each_function_aligned functions g []) as Haligned.
  cbn [List.length app] in Haligned. rewrite Haligned. clear Haligned.
  rewrite (@select_loop_field selectedFunctions (to_kind "function")
             select_item_functions).
  rewrite (@select_loop_field selectedEndpoints (to_kind "endpoint")
             select_item_endpoints).
  rewrite (@select_loop_field selectedRemovalEndpoints to_removal
             select_item_removal).
  rewrite (@select_loop_field selectedEvents (to_kind "event")
             select_item_events).
  repeat split; f_equal.
  - rewrite (@all_toggled_values (to_kind "function") functions g
               (fun f => [getName f])).
    + clear. induction functions as [|f rest IH]; simpl; congruence.
    + intro f. rewrite block_values.
      rewrite (@values_of_entries _ endpoint_choice endpoint_key _ false),
        (@values_of_entries _ removal_choice (fun k => k) _ false),
        (@values_of_entries _ event_choice event_name _ false);
        reflexivity.
  - apply all_toggled_values. intro f. rewrite block_values.
    rewrite (@values_of_entries _ endpoint_choice endpoint_key _ true),
      (@values_of_entries _ removal_choice (fun k => k) _ false),
      (@values_of_entries _ event_choice event_name _ false);
      try reflexivity.
    simpl. now rewrite app_nil_r.
  - apply all_toggled_values. intro f. rewrite block_values.
    rewrite (@values_of_entries _ endpoint_choice endpoint_key _ false),
      (@values_of_entries _ removal_choice (fun k => k) _ true),
      (@values_of_entries _ event_choice event_name _ false);
      try reflexivity.
    simpl. now rewrite map_id, app_nil_r.
  - apply all_toggled_values. intro f. rewrite block_values.
    rewrite (@values_of_entries _ endpoint_choice endpoint_key _ false),
      (@values_of_entries _ removal_choice (fun k => k) _ false),
      (@values_of_entries _ event_choice event_name _ true);
      reflexivity.
Qed.

Lemma select_loop_untoggled (its : list Item) (o : Options) :
  (forall it, In it its -> toggled it = false) ->
  select_loop its o = o.
Proof.
  revert o. induction its as [|it rest IH]; intros o Hoff; simpl; trivial.
  unfold select_item. rewrite (Hoff it) by now left.
  apply IH. intros x Hx. apply Hoff. now right.
Qed.

(** What [_prompt] does once the prompt has answered with [its]. *)
Lemma prompt_run (E : Env) (w : World) (its : list Item) :
  cliPromptSelect E "Select the assets you wish to deploy:"
    (buildChoices (functionsByCwd E) (notExistEndpoints (data (evt w))))
    true "Deploy" = Fulfilled its ->
  _prompt E w
  = (Fulfilled tt,
     {| evt := set_options (select_loop its) (evt w);
        trace :=
          trace w ++
          [Invoke AsciiGreeting; Invoke (ConsoleLog ""); Invoke QuickHelp;
           Invoke (ConsoleLog "");
           Invoke (CliPromptSelect "Select the assets you wish to deploy:"
                     (buildChoices (functionsByCwd E)
                        (notExistEndpoints (data (evt w))))
                     true "Deploy");
           Settle (CliPromptSelect "Select the assets you wish to deploy:"
                     (buildChoices (functionsByCwd E)
                        (notExistEndpoints (data (evt w))))
                     true "Deploy") None;
           Invoke (ConsoleLog "")] |}).
Proof.
  intro Hprompt.
  unfold _prompt, bind, external, sync, get_evt, modify, log. simpl.
  rewrite Hprompt. simpl. now rewrite <- !app_assoc.
Qed.

(** With nothing selected, [_deploy] fulfils at once. *)
Lemma deploy_nothing (E : Env) (w : World) :
  selection (options (evt w)) = ([], [], [], []) ->
  _deploy E w = (Fulfilled tt, w).
Proof.
  intro Hsel.
  destruct w as [[o d] t].
  destruct o as [st rg a1 a2 a3 ds sf se sv sr].
  unfold selection in Hsel. simpl in Hsel. injection Hsel as -> -> -> ->.
  reflexivity.
Qed.

(** X7. When the prompt returns with nothing toggled and nothing was
    selected before, [_prompt] followed by [_deploy] fulfils, leaves
    [evt] as it was, and the only calls made are the greeting, the help
    and the prompt itself: no deploy or remove operation is invoked. *)
Theorem X7_nothing_toggled_nothing_deployed
  (E : Env) (w : World) (its : list Item) :
  cliPromptSelect E "Select the assets you wish to deploy:"
    (buildChoices (functionsByCwd E) (notExistEndpoints (data (evt w))))
    true "Deploy" = Fulfilled its ->
  (forall it, In it its -> toggled it = false) ->
  selection (options (evt w)) = ([], [], [], []) ->
  (_prompt E >> _deploy E) w
  = (Fulfilled tt,
     log [Invoke AsciiGreeting; Invoke (ConsoleLog ""); Invoke QuickHelp;
          Invoke (ConsoleLog "");
          Invoke (CliPromptSelect "Select the assets you wish to deploy:"
                    (buildChoices (functionsByCwd E)
                       (notExistEndpoints (data (evt w))))
                    true "Deploy");
          Settle (CliPromptSelect "Select the assets you wish to deploy:"
                    (buildChoices (functionsByCwd E)
                       (notExistEndpoints (data (evt w))))
                    true "Deploy") None;
          Invoke (ConsoleLog "")] w).
Proof.
  intros Hprompt Hoff Hsel.
  unfold bind at 1. rewrite (prompt_run E w Hprompt).
  assert (Hsame : set_options (select_loop its) (evt w) = evt w).
  { unfold set_options. rewrite (select_loop_untoggled _ _ Hoff).
    now destruct (evt w). }
  rewrite Hsame. rewrite deploy_nothing by exact Hsel.
  reflexivity.
Qed.

Lemma X7_nothing_toggled_nothing_deployed_witness :
  fst ((_prompt Sample.quiet >> _deploy Sample.quiet) Sample.fetched)
  = Fulfilled tt /\
  evt (snd ((_prompt Sample.quiet >> _deploy Sample.quiet) Sample.fetched))
  = evt Sample.fetched.
Proof.
  rewrite (@X7_nothing_toggled_nothing_deployed Sample.quiet Sample.fetched
             (map (Sample.toggle [])
                  (buildChoices (functionsByCwd Sample.quiet) []))
             eq_refl).
  - split; reflexivity.
  - intros it Hin. simpl in Hin.
    repeat (destruct Hin as [<- | Hin]; [reflexivity|]). destruct Hin.
  - reflexivity.
Defined.

(** ** The label of a removal entry *)

Section Labels.

Lemma append_String (a : string) (c : ascii) (b : string) :
  ((a ++ String c "") ++ b)%string = (a ++ String c b)%string.
Proof. induction a as [|x a IH]; simpl; congruence. Qed.

Lemma append_empty_r (a : string) : (a ++ "")%string = a.
Proof. induction a as [|x a IH]; simpl; congruence. Qed.

Lemma split_from_no_tilde (s cur : string) :
  no_tilde s = true ->
  Js.split_from "~" s cur = [(cur ++ s)%string].
Proof.
  revert cur. induction s as [|c s IH]; intros cur Hs; simpl in *.
  - now rewrite append_empty_r.
  - apply andb_true_iff in Hs. destruct Hs as [Hc Hs].
    apply negb_true_iff in Hc. rewrite Hc, (IH _ Hs).
    now rewrite append_String.
Qed.

Lemma split_from_first (p rest cur : string) :
  no_tilde p = true ->
  Js.split_from "~" (p ++ String "~" rest) cur
  = (cur ++ p)%string :: Js.split_from "~" rest "".
Proof.
  revert cur. induction p as [|c p IH]; intros cur Hp; simpl in *.
  - now rewrite append_empty_r.
  - apply andb_true_iff in Hp. destruct Hp as [Hc Hp].
    apply negb_true_iff in Hc. rewrite Hc, (IH _ Hp).
    now rewrite append_String.
Qed.

End Labels.

(** X8. The label of a removal entry reads the key back.  For a key
    "<p>~<m>" in which neither [p] nor [m] contains "~", the entry
    carries the key as its value and the label
    "x endpoint removal - <p> - <m>"; a key with no "~" at all gets the
    label "x endpoint removal - <key> - undefined". *)
Theorem X8_removal_label_reads_key (p m : string) :
  no_tilde p = true ->
  no_tilde m = true ->
  removal_choice (p ++ "~" ++ m)
  = Entry "  " (p ++ "~" ++ m)
      ("x endpoint removal - " ++ p ++ " - " ++ m) "endpoint" true /\
  removal_choice p
  = Entry "  " p ("x endpoint removal - " ++ p ++ " - undefined")
      "endpoint" true.
Proof.
  intros Hp Hm. unfold removal_choice, Js.split. split.
  - change (p ++ "~" ++ m)%string with (p ++ String "~" m)%string.
    rewrite (@split_from_first p m "" Hp), (@split_from_no_tilde m "" Hm).
    reflexivity.
  - rewrite (@split_from_no_tilde p "" Hp). reflexivity.
Qed.

Lemma X8_removal_label_reads_key_witness :
  removal_choice "users~DELETE"
  = Entry "  " "users~DELETE" "x endpoint removal - users - DELETE"
      "endpoint" true.
Proof.
  exact (proj1 (@X8_removal_label_reads_key "users" "DELETE" eq_refl eq_refl)).
Defined.

(** ** The dispatcher, continued *)

Section Loop.

Variable E : Env.

Ltac next_stage :=
  match goal with
  | |- context [functionDeploy E ?a ?b ?c] =>
      destruct (functionDeploy E a b c); simpl
  | |- context [endpointDeploy E ?a ?b ?c] =>
      destruct (endpointDeploy E a b c); simpl
  | |- context [eventDeploy E ?a ?b ?c] =>
      destruct (eventDeploy E a b c); simpl
  | |- context [endpointRemove E ?a ?b ?c ?d] =>
      destruct (endpointRemove E a b c d); simpl
  end.

Lemma deploy_is_run_calls (w : World) :
  _deploy E w = run_calls E (stage_calls (options (evt w))) w.
Proof.
  destruct w as [[o d] t].
  destruct o as [st rg a1 a2 a3 ds sf se sv sr].
  unfold _deploy, functions_stage, endpoints_stage, events_stage,
    removal_stage, new_BbPromise, then_resolve, bind, external, get_evt,
    modify, resolve, log, stage_calls; simpl.
  destruct sf as [|f0 sf]; simpl; [|next_stage];
    (destruct se as [|e0 se]; simpl; [|try next_stage]);
    (destruct sv as [|v0 sv]; simpl; [|try next_stage]);
    (destruct sr as [|r0 sr]; simpl; [|try next_stage]);
    reflexivity.
Qed.

(** The loop over calls that all resolve, followed by more calls. *)
Lemma run_calls_app (done later : list Call) (w : World) :
  forallb (resolves E) done = true ->
  exists w',
    run_calls E (done ++ later) w = run_calls E later w' /\
    trace w' = trace w ++ resolved_steps done /\
    options (evt w') = options (evt w).
Proof.
  revert w. induction done as [|c rest IH]; intros w Hall; simpl in *.
  - exists w. now rewrite app_nil_r.
  - apply andb_true_iff in Hall. destruct Hall as [Hc Hrest].
    unfold resolves in Hc. destruct (answer E c) as [m| |]; try discriminate.
    destruct (IH {| evt := store c m (evt w);
                    trace := trace w ++ [Invoke c; Settle c None] |} Hrest)
      as [w' [Hrun [Htrace Hopt]]].
    exists w'. split; [exact Hrun|]. split.
    + rewrite Htrace. simpl. now rewrite <- app_assoc.
    + rewrite Hopt. simpl. now destruct c.
Qed.

End Loop.

(** X9. [_deploy] is one loop over the due operations (one per non-empty
    sequence, in stage order): each is invoked in turn and its answer
    stored in its outcome mapping; the loop stops at the first operation
    that does not resolve, rejected with that operation's error, or left
    pending when the operation never completes or is the function deploy. *)
Theorem X9_deploy_is_a_loop (E : Env) (w : World) :
  _deploy E w = run_calls E (stage_calls (options (evt w))) w.
Proof. apply deploy_is_run_calls. Qed.

(** X10. A rejection in a stage after the first reaches the caller.  When
    the due operations ahead of [c] all resolve and [c], which is not the
    function deploy, rejects with [e], then [_deploy] is rejected with
    [e]; the operations ahead were invoked and resolved in order, [c] is
    the last call made, and the operations due after it are not invoked. *)
Theorem X10_later_rejection_reaches_caller
  (E : Env) (w : World) (done later : list Call) (c : Call) (e : Err) :
  stage_calls (options (evt w)) = done ++ c :: later ->
  forallb (resolves E) done = true ->
  answer E c = Rejected e ->
  is_functionDeploy c = false ->
  fst (_deploy E w) = Rejected e /\
  trace (snd (_deploy E w))
  = trace w ++ resolved_steps done ++ [Invoke c; Settle c (Some e)] /\
  options (evt (snd (_deploy E w))) = options (evt w).
Proof.
  intros Hcalls Hdone Hrej Hlater.
  rewrite deploy_is_run_calls, Hcalls.
  destruct (run_calls_app E done (c :: later) w Hdone)
    as [w' [Hrun [Htrace Hopt]]].
  rewrite Hrun. simpl. rewrite Hrej, Hlater. simpl.
  rewrite Htrace, Hopt. now rewrite <- app_assoc.
Qed.

Lemma X10_later_rejection_reaches_caller_witness :
  fst (_deploy Sample.rejecting_endpoints Sample.chosen_all)
  = Rejected (ProviderError "request failed") /\
  trace (snd (_deploy Sample.rejecting_endpoints Sample.chosen_all))
  = [Invoke (FunctionDeploy (Some "dev") (Some "us-east-1") ["users"]);
     Settle (FunctionDeploy (Some "dev") (Some "us-east-1") ["users"]) None;
     Invoke (EndpointDeploy (Some "dev") (Some "us-east-1") ["users~GET"]);
     Settle (EndpointDeploy (Some "dev") (Some "us-east-1") ["users~GET"])
            (Some (ProviderError "request failed"))].
Proof.
  destruct (@X10_later_rejection_reaches_caller
              Sample.rejecting_endpoints Sample.chosen_all
              [FunctionDeploy (Some "dev") (Some "us-east-1") ["users"]]
              [EventDeploy (Some "dev") (Some "us-east-1") ["nightly"];
               EndpointRemove (Some "dev") (Some "us-east-1") ["users~DELETE"]
                              true]
              (EndpointDeploy (Some "dev") (Some "us-east-1") ["users~GET"])
              (ProviderError "request failed")
              eq_refl eq_refl eq_refl eq_refl)
    as [Hfst [Htrace _]].
  split; [exact Hfst | exact Htrace].
Defined.

(** X11. An operation that never completes holds the dispatcher for
    good.  When the due operations ahead of [c] all resolve and [c] never
    settles, [_deploy] never settles either; [c] was invoked and nothing
    after it is. *)
Theorem X11_unfinished_operation_blocks
  (E : Env) (w : World) (done later : list Call) (c : Call) :
  stage_calls (options (evt w)) = done ++ c :: later ->
  forallb (resolves E) done = true ->
  answer E c = Pending ->
  fst (_deploy E w) = Pending /\
  trace (snd (_deploy E w)) = trace w ++ resolved_steps done ++ [Invoke c].
Proof.
  intros Hcalls Hdone Hpending.
  rewrite deploy_is_run_calls, Hcalls.
  destruct (run_calls_app E done (c :: later) w Hdone)
    as [w' [Hrun [Htrace Hopt]]].
  rewrite Hrun. simpl. rewrite Hpending. simpl.
  rewrite Htrace. now rewrite <- app_assoc.
Qed.

Lemma X11_unfinished_operation_blocks_witness :
  fst (_deploy (Sample.env [] Pending) Sample.chosen) = Pending /\
  trace (snd (_deploy (Sample.env [] Pending) Sample.chosen))
  = [Invoke (FunctionDeploy (Some "dev") (Some "us-east-1") ["users"])].
Proof.
  apply (@X11_unfinished_operation_blocks (Sample.env [] Pending) Sample.chosen
           []
           [EndpointRemove (Some "dev") (Some "us-east-1") ["users~DELETE"]
                           true]
           (FunctionDeploy (Some "dev") (Some "us-east-1") ["users"])
           eq_refl eq_refl eq_refl).
Defined.

(** X12. When every due operation resolves, [_deploy] fulfils and each
    stage whose sequence is not empty has stored what its operation
    answered in its outcome mapping; the listing and the orphan lists in
    [evt.data] are left as they were. *)
Theorem X12_answers_are_stored (E : Env) (w : World) :
  forallb (resolves E) (stage_calls (options (evt w))) = true ->
  fst (_deploy E w) = Fulfilled tt /\
  (forall m,
      functionDeploy E (stage (options (evt w))) (region (options (evt w)))
        (selectedFunctions (options (evt w))) = Fulfilled m ->
      selectedFunctions (options (evt w)) <> [] ->
      deployedFunctions (data (evt (snd (_deploy E w)))) = m) /\
  (forall m,
      endpointDeploy E (stage (options (evt w))) (region (options (evt w)))
        (selectedEndpoints (options (evt w))) = Fulfilled m ->
      selectedEndpoints (options (evt w)) <> [] ->
      deployedEndpoints (data (evt (snd (_deploy E w)))) = m) /\
  (forall m,
      eventDeploy E (stage (options (evt w))) (region (options (evt w)))
        (selectedEvents (options (evt w))) = Fulfilled m ->
      selectedEvents (options (evt w)) <> [] ->
      deployedEvents (data (evt (snd (_deploy E w)))) = m) /\
  (forall m,
      endpointRemove E (stage (options (evt w))) (region (options (evt w)))
        (selectedRemovalEndpoints (options (evt w))) true = Fulfilled m ->
      selectedRemovalEndpoints (options (evt w)) <> [] ->
      removedEndpoints (data (evt (snd (_deploy E w)))) = m) /\
  deployedResources (data (evt (snd (_deploy E w))))
  = deployedResources (data (evt w)) /\
  notExistEndpoints (data (evt (snd (_deploy E w))))
  = notExistEndpoints (data (evt w)).
Proof.
  destruct w as [[o d] t].
  destruct o as [st rg a1 a2 a3 ds sf se sv sr].
  unfold _deploy, functions_stage, endpoints_stage, events_stage,
    removal_stage, new_BbPromise, then_resolve, bind, external, get_evt,
    modify, resolve, log, stage_calls, resolves, answer; simpl.
  intro Hall.
  destruct sf as [|f0 sf], se as [|e0 se], sv as [|v0 sv], sr as [|r0 sr];
    simpl in *;
    repeat match type of Hall with
           | context [match ?x with _ => _ end] =>
               destruct x eqn:?; simpl in Hall; try discriminate Hall
           end;
    repeat (simpl;
            match goal with
            | H : ?x = Fulfilled _ |- context [match ?x with _ => _ end] =>
                rewrite H
            end);
    simpl; repeat split; intros; congruence.
Qed.

Lemma X12_answers_are_stored_witness :
  deployedFunctions
    (data (evt (snd (_deploy (Sample.env [] (Fulfilled [("users", "ok")]))
                             Sample.chosen))))
  = [("users", "ok")] /\
  removedEndpoints
    (data (evt (snd (_deploy (Sample.env [] (Fulfilled [("users", "ok")]))
                             Sample.chosen))))
  = [("users~DELETE", "gone")].
Proof.
  destruct (@X12_answers_are_stored
              (Sample.env [] (Fulfilled [("users", "ok")])) Sample.chosen
              eq_refl)
    as [_ [Hf [_ [_ [Hr _]]]]].
  split.
  - apply Hf; [reflexivity | discriminate].
  - apply Hr; [reflexivity | discriminate].
Defined.

(** ** The listing of deployed resources, continued *)

(** X13. How [_getDeployedResources] fails.  When the lookup of the API
    rejects with [e], so does the fetch, and no listing request is made;
    when the lookup resolves with no API (undefined), the fetch is
    rejected with a type error, again without a listing request; when the
    listing request rejects with [e], so does the fetch.  In each case
    [evt] is left as it was. *)
Theorem X13_fetch_failures (E : Env) (w : World) :
  let o := options (evt w) in
  let lookup := GetApiByName (restApiName E o) (stage o) (region o) in
  (forall e,
      getApiByName E (restApiName E o) (stage o) (region o) = Rejected e ->
      _getDeployedResources E w
      = (Rejected e,
         log [Invoke InitProviders; Invoke lookup; Settle lookup (Some e)] w)) /\
  (getApiByName E (restApiName E o) (stage o) (region o) = Fulfilled None ->
   exists message,
     _getDeployedResources E w
     = (Rejected (TypeError message),
        log [Invoke InitProviders; Invoke lookup; Settle lookup None] w)) /\
  (forall api e,
      getApiByName E (restApiName E o) (stage o) (region o)
      = Fulfilled (Some api) ->
      request E "APIGateway" "getResources" (api_id api) 500 (stage o) (region o)
      = Rejected e ->
      _getDeployedResources E w
      = (Rejected e,
         log [Invoke InitProviders; Invoke lookup; Settle lookup None;
              Invoke (AwsRequest "APIGateway" "getResources" (api_id api) 500
                        (stage o) (region o));
              Settle (AwsRequest "APIGateway" "getResources" (api_id api) 500
                        (stage o) (region o)) (Some e)] w)).
Proof.
  intros o lookup. unfold o, lookup.
  unfold _getDeployedResources, bind, get_evt, sync, external, resolve, reject,
    log. simpl.
  split; [|split].
  - intros e Hrej. rewrite Hrej. simpl. now rewrite <- !app_assoc.
  - intro Hnone. rewrite Hnone. simpl. eexists. now rewrite <- !app_assoc.
  - intros api e Hapi Hrej. rewrite Hapi. simpl. rewrite Hrej. simpl.
    now rewrite <- !app_assoc.
Qed.

Lemma X13_fetch_failures_witness :
  fst (_getDeployedResources Sample.unreachable Sample.started)
  = Rejected (ProviderError "request failed").
Proof.
  rewrite (proj2 (proj2 (X13_fetch_failures Sample.unreachable Sample.started))
             {| api_id := "api1" |} (ProviderError "request failed")
             eq_refl eq_refl).
  reflexivity.
Defined.

(** ** The whole run *)



Lemma bind_fulfilled {A B} (p : promise A) (f : A -> promise B)
  (w w' : World) (a : A) :
  p w = (Fulfilled a, w') -> (p >>= f) w = f a w'.
Proof. intro H. unfold bind. now rewrite H. Qed.

Lemma modify_run (g : Evt -> Evt) (w : World) :
  modify g w = (Fulfilled tt, {| evt := g (evt w); trace := trace w |}).
Proof. reflexivity. Qed.

Lemma select_stage_run (E : Env) (w : World) (s : string) :
  cliPromptSelectStage E "Choose a Stage: " (stage (options (evt w))) false
  = Fulfilled s ->
  select_stage E w
  = (Fulfilled tt,
     {| evt := set_options (with_stage (Some s)) (evt w);
        trace :=
          trace w ++
          [Invoke (CliPromptSelectStage "Choose a Stage: "
                     (stage (options (evt w))) false);
           Settle (CliPromptSelectStage "Choose a Stage: "
                     (stage (options (evt w))) false) None] |}).
Proof.
  intro H. unfold select_stage, bind, get_evt, external, modify, log.
  simpl. now rewrite H.
Qed.

Lemma select_region_run (E : Env) (w : World) (r : string) :
  cliPromptSelectRegion E "Choose a Region in this Stage: " false true
    (region (options (evt w))) (stage (options (evt w))) = Fulfilled r ->
  select_region E w
  = (Fulfilled tt,
     {| evt := set_options (with_region (Some r)) (evt w);
        trace :=
          trace w ++
          [Invoke (CliPromptSelectRegion "Choose a Region in this Stage: "
                     false true (region (options (evt w)))
                     (stage (options (evt w))));
           Settle (CliPromptSelectRegion "Choose a Region in this Stage: "
                     false true (region (options (evt w)))
                     (stage (options (evt w)))) None] |}).
Proof.
  intro H. unfold select_region, bind, get_evt, external, modify, log.
  simpl. now rewrite H.
Qed.

Lemma getDeployedResources_run (E : Env) (w : World) (api : RestApiData)
  (res : Resources) :
  getApiByName E (restApiName E (options (evt w)))
    (stage (options (evt w))) (region (options (evt w)))
  = Fulfilled (Some api) ->
  request E "APIGateway" "getResources" (api_id api) 500
    (stage (options (evt w))) (region (options (evt w)))
  = Fulfilled res ->
  _getDeployedResources E w
  = (Fulfilled res,
     {| evt := evt w;
        trace :=
          trace w ++
          [Invoke InitProviders;
           Invoke (GetApiByName (restApiName E (options (evt w)))
                     (stage (options (evt w))) (region (options (evt w))));
           Settle (GetApiByName (restApiName E (options (evt w)))
                     (stage (options (evt w))) (region (options (evt w))))
                  None;
           Invoke (AwsRequest "APIGateway" "getResources" (api_id api) 500
                     (stage (options (evt w))) (region (options (evt w))));
           Settle (AwsRequest "APIGateway" "getResources" (api_id api) 500
                     (stage (options (evt w))) (region (options (evt w))))
                  None] |}).
Proof.
  intros Hapi Hreq.
  unfold _getDeployedResources, bind, get_evt, sync, external, resolve, log.
  simpl. rewrite Hapi. simpl. rewrite Hreq. simpl.
  now rewrite <- !app_assoc.
Qed.

(** X15. What reaches the dispatcher when every collaborator answers.  In
    an interactive context, with the stage prompt answering [s] (asked
    with the stage option, null when falsy), the region prompt answering
    [r] (asked with the region option as given and the stage [s]), the
    lookup and the listing, both made for [s] and [r], answering [api]
    and [res], and the checklist, shown the choices built from the
    orphans of [res], answering [its]: the chain ahead of [_deploy]
    fulfils; [evt] then holds [s] and [r], the listing, one orphan list
    per local function and the selection read from [its]; the outcome
    mappings are still empty; and [dashDeploy] ends the way [_deploy]
    does from there, returning [evt]. *)
Theorem X15_answers_reach_the_dispatcher
  (E : Env) (c : CliOptions) (s r : string) (api : RestApiData)
  (res : Resources) (its : list Item) :
  let o2 := with_region (Some r) (with_stage (Some s) (options (defaults c))) in
  let orphans := map (fun f => funcNotExistEndpoints_of f (items res))
                     (functionsByCwd E) in
  interactive E = true ->
  cliPromptSelectStage E "Choose a Stage: " (Js.or_null (opt_stage c)) false
  = Fulfilled s ->
  cliPromptSelectRegion E "Choose a Region in this Stage: " false true
    (opt_region c) (Some s) = Fulfilled r ->
  getApiByName E (restApiName E o2) (Some s) (Some r) = Fulfilled (Some api) ->
  request E "APIGateway" "getResources" (api_id api) 500 (Some s) (Some r)
  = Fulfilled res ->
  cliPromptSelect E "Select the assets you wish to deploy:"
    (buildChoices (functionsByCwd E) orphans) true "Deploy" = Fulfilled its ->
  let w1 := snd (before_deploy E {| evt := defaults c; trace := [] |}) in
  fst (before_deploy E {| evt := defaults c; trace := [] |}) = Fulfilled tt /\
  evt w1
  = {| options := select_loop its o2;
       data := {| deployedResources := Listing res;
                  notExistEndpoints := orphans;
                  deployedFunctions := [];
                  deployedEndpoints := [];
                  removedEndpoints := [];
                  deployedEvents := [] |} |} /\
  invoked (trace w1)
  = [CliPromptSelectStage "Choose a Stage: " (Js.or_null (opt_stage c)) false;
     CliPromptSelectRegion "Choose a Region in this Stage: " false true
       (opt_region c) (Some s);
     InitProviders;
     GetApiByName (restApiName E o2) (Some s) (Some r);
     AwsRequest "APIGateway" "getResources" (api_id api) 500 (Some s) (Some r);
     AsciiGreeting; ConsoleLog ""; QuickHelp; ConsoleLog "";
     CliPromptSelect "Select the assets you wish to deploy:"
       (buildChoices (functionsByCwd E) orphans) true "Deploy";
     ConsoleLog ""] /\
  dashDeploy E c = (_deploy E >> get_evt) w1.
Proof.
  intros o2 orphans Hi Hstage Hregion Hapi Hreq Hprompt w1.
  set (w0 := {| evt := defaults c; trace := [] |}) in *.
  assert (H1 : (resolve tt >> _validateAndPrepare E) w0 = (Fulfilled tt, w0)).
  { unfold bind, resolve, _validateAndPrepare. now rewrite Hi. }
  pose proof (select_stage_run E w0 Hstage) as Hs.
  pose proof (@bind_fulfilled _ _ _ (fun _ => select_stage E) _ _ _ H1) as H2.
  cbv beta in H2.
  rewrite Hs in H2. clear Hs.
  pose proof (@bind_fulfilled _ _ _ (fun _ => select_region E) _ _ _ H2) as H3.
  cbv beta in H3.
  rewrite (@select_region_run E _ r) in H3 by exact Hregion.
  pose proof (@bind_fulfilled _ _ _ (fun _ => _getDeployedResources E) _ _ _ H3)
    as H4.
  cbv beta in H4.
  rewrite (@getDeployedResources_run E _ api res) in H4
    by (simpl; assumption).
  pose proof (@bind_fulfilled _ _ _
                (fun deployed =>
                   modify (set_data (with_deployedResources (Listing deployed))))
                _ _ _ H4) as H5.
  cbv beta in H5.
  rewrite modify_run in H5. cbn [evt trace] in H5.
  pose proof (@bind_fulfilled _ _ _ (fun _ => _initNotExistEndpoints E) _ _ _ H5)
    as H6.
  cbv beta in H6.
  rewrite (@initNotExistEndpoints_run E _ res) in H6 by reflexivity.
  pose proof (@bind_fulfilled _ _ _ (fun _ => _prompt E) _ _ _ H6) as H7.
  cbv beta in H7.
  rewrite (@prompt_run E _ its) in H7 by (simpl; exact Hprompt).
  fold (before_deploy E) in H7.
  unfold dashDeploy. fold w0. rewrite dashDeploy_flow_split.
  unfold bind at 1 2. unfold w1. rewrite H7. simpl.
  repeat split.
Qed.

Lemma X15_answers_reach_the_dispatcher_witness :
  fst (before_deploy (Sample.env ["users"; "users~DELETE"]
                                 (Fulfilled [("users", "ok")]))
                     {| evt := defaults Sample.cli; trace := [] |})
  = Fulfilled tt.
Proof.
  apply (@X15_answers_reach_the_dispatcher
           (Sample.env ["users"; "users~DELETE"] (Fulfilled [("users", "ok")]))
           Sample.cli "dev" "us-east-1" {| api_id := "api1" |} Sample.listing
           (map (Sample.toggle ["users"; "users~DELETE"])
                (buildChoices [Sample.users] [["users~DELETE"]]))
           eq_refl eq_refl eq_refl eq_refl eq_refl eq_refl).
Defined.

(** ** The options that are carried along *)

Section Kept.

Variable E : Env.

Lemma keeps_bind {A B} (p : promise A) (f : A -> promise B) :
  keeps p -> (forall a, keeps (f a)) -> keeps (p >>= f).
Proof.
  intros Hp Hf w. unfold bind.
  specialize (Hp w). destruct (p w) as [[a|e|] w']; simpl in *; trivial.
  now rewrite Hf.
Qed.

Lemma keeps_get_evt {B} (f : Evt -> promise B) :
  (forall e, keeps (f e)) -> keeps (get_evt >>= f).
Proof. intros Hf w. unfold bind, get_evt. apply Hf. Qed.

Lemma keeps_resolve {A} (a : A) : keeps (resolve a).
Proof. intro w. reflexivity. Qed.

Lemma keeps_reject {A} (e : Err) : keeps (@reject A e).
Proof. intro w. reflexivity. Qed.

Lemma keeps_external {A} (c : Call) (r : settle A) : keeps (external c r).
Proof. intro w. destruct r; reflexivity. Qed.

Lemma keeps_sync (c : Call) : keeps (sync c).
Proof. intro w. reflexivity. Qed.

Lemma keeps_modify (g : Evt -> Evt) :
  (forall e, passed_through (options (g e)) = passed_through (options e)) ->
  keeps (modify g).
Proof. intros Hg w. unfold modify. simpl. apply Hg. Qed.

Lemma select_item_keeps it o :
  passed_through (select_item it o) = passed_through o.
Proof.
  destruct it as [[header | key value label type removal] [|]];
    unfold select_item; simpl; trivial.
  destruct removal, (String.eqb type "endpoint"), (String.eqb type "function"),
    (String.eqb type "event"); reflexivity.
Qed.

Lemma select_loop_keeps its o :
  passed_through (select_loop its o) = passed_through o.
Proof.
  revert o. induction its as [|it rest IH]; intro o; simpl; trivial.
  now rewrite IH, select_item_keeps.
Qed.

Ltac keeps_step :=
  first
    [ apply keeps_get_evt; intro
    | apply keeps_bind; [|intro]
    | apply keeps_modify; intro; reflexivity
    | apply keeps_resolve
    | apply keeps_reject
    | apply keeps_external
    | apply keeps_sync ].

Lemma keeps_validateAndPrepare : keeps (_validateAndPrepare E).
Proof.
  unfold _validateAndPrepare.
  destruct (negb (interactive E)); [apply keeps_reject | apply keeps_resolve].
Qed.

Lemma keeps_select_stage : keeps (select_stage E).
Proof. unfold select_stage. repeat keeps_step. Qed.

Lemma keeps_select_region : keeps (select_region E).
Proof. unfold select_region. repeat keeps_step. Qed.

Lemma keeps_getDeployedResources : keeps (_getDeployedResources E).
Proof.
  unfold _getDeployedResources.
  apply keeps_get_evt; intro e.
  apply keeps_bind; [repeat keeps_step | intros [api|]; repeat keeps_step].
Qed.

Lemma keeps_initNotExistEndpoints : keeps (_initNotExistEndpoints E).
Proof.
  unfold _initNotExistEndpoints.
  apply keeps_get_evt; intro e.
  destruct (forEach_func _ _ _); repeat keeps_step.
Qed.

Lemma keeps_prompt : keeps (_prompt E).
Proof.
  unfold _prompt.
  apply keeps_get_evt; intro e.
  apply keeps_bind; [repeat keeps_step | intro its].
  apply keeps_bind; [|intro; apply keeps_sync].
  apply keeps_modify. intro e'. apply select_loop_keeps.
Qed.

Lemma keeps_functions_stage : keeps (functions_stage E).
Proof.
  intro w. unfold functions_stage, new_BbPromise, then_resolve, bind,
    external, modify. simpl.
  destruct (nothing_selected (selectedFunctions (options (evt w)))); trivial.
  destruct (functionDeploy E _ _ _); reflexivity.
Qed.

Lemma keeps_endpoints_stage : keeps (endpoints_stage E).
Proof.
  unfold endpoints_stage. apply keeps_get_evt; intro e.
  destruct (nothing_selected _); repeat keeps_step.
Qed.

Lemma keeps_events_stage : keeps (events_stage E).
Proof.
  unfold events_stage. apply keeps_get_evt; intro e.
  destruct (nothing_selected _); repeat keeps_step.
Qed.

Lemma keeps_removal_stage : keeps (removal_stage E).
Proof.
  unfold removal_stage. apply keeps_get_evt; intro e.
  destruct (nothing_selected _); repeat keeps_step.
Qed.

Lemma keeps_flow : keeps (before_deploy E >> _deploy E).
Proof.
  apply keeps_bind; [|intro].
  - unfold before_deploy.
    apply keeps_bind; [|intro; apply keeps_prompt].
    apply keeps_bind; [|intro; apply keeps_initNotExistEndpoints].
    apply keeps_bind; [|intro; apply keeps_modify; intro; reflexivity].
    apply keeps_bind; [|intro; apply keeps_getDeployedResources].
    apply keeps_bind; [|intro; apply keeps_select_region].
    apply keeps_bind; [|intro; apply keeps_select_stage].
    apply keeps_bind; [|intro; apply keeps_validateAndPrepare].
    apply keeps_resolve.
  - unfold _deploy.
    apply keeps_bind; [|intro; apply keeps_removal_stage].
    apply keeps_bind; [|intro; apply keeps_events_stage].
    apply keeps_bind; [|intro; apply keeps_endpoints_stage].
    apply keeps_functions_stage.
Qed.

End Kept.

(** X16. The aliases and the description are carried along untouched.
    However the run goes, the [evt] it ends with, which is the one a
    fulfilled run returns, holds each alias as normalised at entry (null
    when the caller's value was falsy) and the description exactly as the
    caller gave it. *)
Theorem X16_aliases_carried_along (E : Env) (c : CliOptions) :
  passed_through (options (evt (snd (dashDeploy E c))))
  = (Js.or_null (opt_aliasFunction c), Js.or_null (opt_aliasEndpoint c),
     Js.or_null (opt_aliasRestApi c), opt_description c) /\
  (forall e, fst (dashDeploy E c) = Fulfilled e ->
             passed_through (options e)
             = (Js.or_null (opt_aliasFunction c),
                Js.or_null (opt_aliasEndpoint c),
                Js.or_null (opt_aliasRestApi c), opt_description c)).
Proof.
  assert (Hend : passed_through (options (evt (snd (dashDeploy E c))))
                 = passed_through (options (defaults c))).
  { pose proof (keeps_flow E {| evt := defaults c; trace := [] |}) as Hk.
    unfold dashDeploy. rewrite dashDeploy_flow_split.
    unfold bind at 1, get_evt.
    destruct ((before_deploy E >> _deploy E) _) as [[[]|e|] w']; exact Hk. }
  split; [exact Hend|].
  intros e He.
  rewrite (proj1 (dashDeploy_end E c) e He). exact Hend.
Qed.

Lemma X16_aliases_carried_along_witness :
  passed_through
    (options (evt (snd (dashDeploy
                          (Sample.env ["users"; "users~DELETE"]
                                      (Fulfilled [("users", "ok")]))
                          Sample.cli_aliased))))
  = (Some "blue", None, Some "v2", Some "nightly release").
Proof.
  exact (proj1 (X16_aliases_carried_along
                  (Sample.env ["users"; "users~DELETE"]
                              (Fulfilled [("users", "ok")]))
                  Sample.cli_aliased)).
Defined.

(** ** Which resource is consulted *)

(** X17. Only the first resource bearing the function's name counts.
    When the listing reads [before ++ r :: after], [r] has the name of
    [func] as [pathPart] and no item of [before] has, the orphan list of
    [func] is computed from the methods of [r] alone: neither [before]
    nor [after], where other resources may bear the same name, has any
    effect. *)
Theorem X17_first_match_only
  (func : FunctionDef) (before after : list DeployedResource)
  (r : DeployedResource) :
  pathPart r = Some (getName func) ->
  (forall x, In x before -> pathPart x <> Some (getName func)) ->
  funcNotExistEndpoints_of func (before ++ r :: after)
  = orphan_keys (getName func) (getAllEndpoints func)
      (Js.for_in_keys (resourceMethods r)).
Proof.
  intros Hr Hbefore.
  apply funcNotExistEndpoints_of_found.
  apply every_search_first. now exists before, after.
Qed.

Lemma X17_first_match_only_witness :
  funcNotExistEndpoints_of Sample.users
    ([Sample.root_resource] ++ Sample.users_resource :: [Sample.users_shadow])
  = ["users~DELETE"].
Proof.
  rewrite (@X17_first_match_only Sample.users [Sample.root_resource]
             [Sample.users_shadow] Sample.users_resource eq_refl).
  - reflexivity.
  - intros x [<- | []]. discriminate.
Defined.

(** X18. A matching resource that carries no method mapping at all (the
    member is absent) yields no orphan, as does one whose every method
    has a local endpoint. *)
Theorem X18_no_methods_no_orphans
  (func : FunctionDef) (its : list DeployedResource) (r : DeployedResource) :
  every_search its (getName func) NotFound = FoundItem r ->
  (resourceMethods r = None -> funcNotExistEndpoints_of func its = []) /\
  ((forall m, In m (Js.for_in_keys (resourceMethods r)) ->
              exists e, In e (getAllEndpoints func) /\ endpoint_method e = m) ->
   funcNotExistEndpoints_of func its = []).
Proof.
  intro Hr. rewrite (funcNotExistEndpoints_of_found _ _ Hr).
  unfold orphan_keys. split.
  - intros ->. reflexivity.
  - intro Hall.
    induction (Js.for_in_keys (resourceMethods r)) as [|m rest IH]; trivial.
    simpl.
    assert (Hm : has_method (getAllEndpoints func) m = true).
    { apply has_method_true. apply Hall. now left. }
    rewrite Hm. simpl. apply IH. intros x Hx. apply Hall. now right.
Qed.

Lemma X18_no_methods_no_orphans_witness :
  funcNotExistEndpoints_of Sample.users [Sample.users_bare] = [].
Proof.
  apply (proj1 (@X18_no_methods_no_orphans Sample.users [Sample.users_bare]
                  Sample.users_bare eq_refl)).
  reflexivity.
Defined.
